(** * Node Lab: graph validation, preset merge and the evaluation lifecycle

    A shallow embedding of the two evaluation front-ends of the
    application:

    - [src/app/interactive/page.tsx]: the board ([Graph] component) on
      which stages are placed and connected, with its validator
      [isValidGraph], the preset merge [applyPreset], the library
      operation [addFromLibrary] and the asynchronous [evaluate];
    - [src/app/workbench/page.tsx]: the direct-edit form
      ([WorkbenchPage]) with [updateConfig], [updateNested] and [run].

    React state is modelled by explicit state passing: every handler is
    a function from the component state before the event to the state
    after it.  An [async] handler is split at its [await]: the part that
    runs when the handler is called (it may hand a request to [fetch]),
    and the part that runs when the response settles.  JavaScript
    objects used as maps are [gmap]s keyed by strings, optional fields
    are [option]s, and [{...a, ...b}] is the right-biased merge. *)

From Stdlib Require Import QArith.
From stdpp Require Import gmap strings list fin_maps.

Local Open Scope string_scope.

(** ** Values shared by both surfaces *)

(** JavaScript numbers.  The program only stores and forwards them (from
    literals, sliders and form inputs); the one computation, the default
    position of a new node, is on small integers.  A literal is written
    in its shortest decimal form ([1.0] as [1]).  These are the finite
    numbers: the literals and what a range slider gives.  [NaN], which a
    cleared number input of the form gives and [JSON.stringify] writes as
    [null], is not among them, and neither are the infinities and the
    negative zero; nothing below states what a body holds for those. *)
Definition number : Type := Q.

(** A nested object such as [weights] or [hard_limits]: named numbers. *)
Abbreviation dict := (gmap string number).

(** [{...a, ...b}] on nested objects: keys of [b] win, keys only in [a]
    are kept. *)
Definition spread_dict (a b : dict) : dict := b ∪ a.

(** [o || {}] *)
Definition or_empty (o : option dict) : dict := default ∅ o.

(** [b ?? a], also the value of a key after [{...{k: a}, ...{k: b}}]
    when an absent key is [None]. *)
Definition or_else {A : Type} (b a : option A) : option A :=
  match b with
  | Some v => Some v
  | None => a
  end.

(** The value handed to [fetch] as request body, up to the order in
    which [JSON.stringify] writes the keys of an object. *)
#[local] Unset Elimination Schemes.
Inductive json : Type :=
| JNull
| JBool (b : bool)
| JNum (n : number)
| JStr (s : string)
| JObj (fields : gmap string json).
#[local] Set Elimination Schemes.

(** A request handed to [fetch]. *)
Record Request : Type := mkRequest {
  url : string;
  method : string;
  body : json;
}.

Definition json_fields (j : json) : gmap string json :=
  match j with
  | JObj m => m
  | _ => ∅
  end.

(** [JSON.stringify] omits a key whose value is [undefined]. *)
Definition put_field (k : string) (v : option json) (m : gmap string json)
  : gmap string json :=
  match v with
  | Some j => <[k := j]> m
  | None => m
  end.

Definition stringify_dict (d : dict) : json := JObj (JNum <$> d).

(** The top-level keys of a request body. *)
Definition top_level_fields (r : Request) : gset string :=
  dom (json_fields (body r)).

(** What the engine's answer looks like to the page.  [fetch] either
    rejects (the transport failed) or resolves to a response with a
    status; [res.text()] gives the body and [res.json()] either the
    parsed payload or the parser's error. *)
Inductive js_result (A : Type) : Type :=
| Resolved (v : A)
| Rejected (message : string).
Arguments Resolved {A} v.
Arguments Rejected {A} message.

Record Response (P : Type) : Type := mkResponse {
  ok : bool;
  text : js_result string;
  parsed : js_result P;
}.
Arguments mkResponse {P} ok text parsed.
Arguments ok {P} r.
Arguments text {P} r.
Arguments parsed {P} r.

(** How the awaited [fetch] settles. *)
Definition Outcome (P : Type) : Type := js_result (Response P).

(** The [try] block of both [evaluate] and [run] up to the parsed
    payload: [res = await fetch(...)], then
    [if (!res.ok) throw new Error(await res.text())], then
    [await res.json()].  [Rejected m] is an error with message [m] on its
    way to the [catch] clause. *)
Definition awaited {P : Type} (o : Outcome P) : js_result P :=
  match o with
  | Rejected m => Rejected m
  | Resolved res =>
      if negb (ok res) then
        match text res with
        | Resolved t => Rejected t
        | Rejected m => Rejected m
        end
      else parsed res
  end.

(** [e.message || fallback] *)
Definition message_or (message fallback : string) : string :=
  if String.eqb message "" then fallback else message.

(** ** The interactive surface *)

Module Interactive.

Record Config : Type := mkConfig {
  window : option number;
  require_same_side : option bool;
  weights : option dict;
  unmatched_penalty : option number;
  hard_limits : option dict;
}.

Inductive PresetName : Type := Strict | Balanced | Lenient.

(** A preset is a [Partial<Config>]. *)
Definition PRESETS (name : PresetName) : Config :=
  match name with
  | Strict =>
      {| window := Some 3.5%Q;
         require_same_side := None;
         weights := Some (<["dist" := 1.2%Q]> (<["clock" := 0.35%Q]>
                          (<["depth" := 0.07%Q]> (<["size" := 0.03%Q]> ∅))));
         unmatched_penalty := Some 25%Q;
         hard_limits := Some (<["dx" := 3.5%Q]> (<["clock" := 2%Q]>
                              (<["cost" := 10%Q]> ∅))) |}
  | Balanced =>
      {| window := Some 5%Q;
         require_same_side := None;
         weights := Some (<["dist" := 1%Q]> (<["clock" := 0.3%Q]>
                          (<["depth" := 0.05%Q]> (<["size" := 0.02%Q]> ∅))));
         unmatched_penalty := Some 20%Q;
         hard_limits := Some (<["dx" := 5%Q]> (<["clock" := 3%Q]>
                              (<["cost" := 12%Q]> ∅))) |}
  | Lenient =>
      {| window := Some 7%Q;
         require_same_side := None;
         weights := Some (<["dist" := 0.8%Q]> (<["clock" := 0.25%Q]>
                          (<["depth" := 0.04%Q]> (<["size" := 0.015%Q]> ∅))));
         unmatched_penalty := Some 12%Q;
         hard_limits := Some (<["dx" := 7%Q]> (<["clock" := 4%Q]>
                              (<["cost" := 18%Q]> ∅))) |}
  end.

(** The state [useState<Config>] starts from. *)
Definition initial_config : Config :=
  {| window := Some 5%Q;
     require_same_side := Some false;
     weights := Some (<["dist" := 1%Q]> (<["clock" := 0.3%Q]>
                      (<["depth" := 0.05%Q]> (<["size" := 0.02%Q]> ∅))));
     unmatched_penalty := Some 20%Q;
     hard_limits := Some (<["dx" := 5%Q]> (<["clock" := 3%Q]>
                          (<["cost" := 12%Q]> ∅))) |}.

(** *** The graph *)

Record XY : Type := mkXY { pos_x : number; pos_y : number }.

(** The [data] bag of a node: the parameters its control shows.  The
    callbacks stored next to them ([onChangeWindow], [onChange], ...) are
    the handlers defined below. *)
Record NodeData : Type := mkData {
  data_window : option number;
  data_requireSame : option bool;
  data_dx : option number;
  data_clock : option number;
  data_cost : option number;
  data_penalty : option number;
}.

Definition no_data : NodeData := mkData None None None None None None.

Record Node : Type := mkNode {
  id : string;
  type : string;
  position : XY;
  data : NodeData;
}.

(** An edge of the board; [edge_type] and [animated] are the
    presentation annotations [onConnect] adds. *)
Record Edge : Type := mkEdge {
  source : string;
  target : string;
  edge_type : option string;
  animated : option bool;
}.

(** [`${e.source}->${e.target}`] *)
Definition edge_key (e : Edge) : string := source e ++ "->" ++ target e.

Definition isValidGraph (nodes : list Node) (edges : list Edge) : bool :=
  let edgeSet : gset string := list_to_set (map edge_key edges) in
  let hasEvaluate := existsb (fun n => String.eqb (id n) "evaluate") nodes in
  let hasInputGate := bool_decide ("input->gate" ∈ edgeSet) in
  let hasToEvaluate := existsb (fun e => String.eqb (target e) "evaluate") edges in
  hasEvaluate && hasInputGate && hasToEvaluate.

(** *** Config updates *)

(** [{...c, ...p}] on configs. *)
Definition spread_config (c p : Config) : Config :=
  {| window := or_else (window p) (window c);
     require_same_side := or_else (require_same_side p) (require_same_side c);
     weights := or_else (weights p) (weights c);
     unmatched_penalty := or_else (unmatched_penalty p) (unmatched_penalty c);
     hard_limits := or_else (hard_limits p) (hard_limits c) |}.

Definition with_window (v : number) (c : Config) : Config :=
  {| window := Some v;
     require_same_side := require_same_side c;
     weights := weights c;
     unmatched_penalty := unmatched_penalty c;
     hard_limits := hard_limits c |}.

Definition with_require_same_side (v : bool) (c : Config) : Config :=
  {| window := window c;
     require_same_side := Some v;
     weights := weights c;
     unmatched_penalty := unmatched_penalty c;
     hard_limits := hard_limits c |}.

Definition with_weights (w : dict) (c : Config) : Config :=
  {| window := window c;
     require_same_side := require_same_side c;
     weights := Some w;
     unmatched_penalty := unmatched_penalty c;
     hard_limits := hard_limits c |}.

Definition with_unmatched_penalty (v : number) (c : Config) : Config :=
  {| window := window c;
     require_same_side := require_same_side c;
     weights := weights c;
     unmatched_penalty := Some v;
     hard_limits := hard_limits c |}.

Definition with_hard_limits (h : dict) (c : Config) : Config :=
  {| window := window c;
     require_same_side := require_same_side c;
     weights := weights c;
     unmatched_penalty := unmatched_penalty c;
     hard_limits := Some h |}.

(** The updater [applyPreset] gives to [setConfig]:
    [{...c, ...p, weights: {...(c.weights || {}), ...(p.weights || {})},
      hard_limits: {...(c.hard_limits || {}), ...(p.hard_limits || {})}}]. *)
Definition merge_preset (p c : Config) : Config :=
  with_hard_limits
    (spread_dict (or_empty (hard_limits c)) (or_empty (hard_limits p)))
    (with_weights
       (spread_dict (or_empty (weights c)) (or_empty (weights p)))
       (spread_config c p)).

(** [JSON.stringify(config)] *)
Definition stringify_config (c : Config) : json :=
  JObj (put_field "window" (JNum <$> window c)
       (put_field "require_same_side" (JBool <$> require_same_side c)
       (put_field "weights" (stringify_dict <$> weights c)
       (put_field "unmatched_penalty" (JNum <$> unmatched_penalty c)
       (put_field "hard_limits" (stringify_dict <$> hard_limits c) ∅))))).

(** *** Component state of [Graph] *)

Record State : Type := mkState {
  config : Config;
  warning : option string;
  status : option string;
  loading : bool;
  preset : PresetName;
  configRef : Config;
  nodes : list Node;
  edges : list Edge;
  usedIds : gset string;
}.

Definition initial_state : State :=
  {| config := initial_config;
     warning := None;
     status := None;
     loading := false;
     preset := Balanced;
     configRef := initial_config;
     nodes := [];
     edges := [];
     usedIds := ∅ |}.

Definition setConfig (f : Config -> Config) (s : State) : State :=
  mkState (f (config s)) (warning s) (status s) (loading s) (preset s)
          (configRef s) (nodes s) (edges s) (usedIds s).

Definition setWarning (w : option string) (s : State) : State :=
  mkState (config s) w (status s) (loading s) (preset s)
          (configRef s) (nodes s) (edges s) (usedIds s).

Definition setStatus (st : option string) (s : State) : State :=
  mkState (config s) (warning s) st (loading s) (preset s)
          (configRef s) (nodes s) (edges s) (usedIds s).

Definition setLoading (b : bool) (s : State) : State :=
  mkState (config s) (warning s) (status s) b (preset s)
          (configRef s) (nodes s) (edges s) (usedIds s).

Definition setPreset (name : PresetName) (s : State) : State :=
  mkState (config s) (warning s) (status s) (loading s) name
          (configRef s) (nodes s) (edges s) (usedIds s).

Definition setNodes (f : list Node -> list Node) (s : State) : State :=
  mkState (config s) (warning s) (status s) (loading s) (preset s)
          (configRef s) (f (nodes s)) (edges s) (usedIds s).

Definition setEdges (f : list Edge -> list Edge) (s : State) : State :=
  mkState (config s) (warning s) (status s) (loading s) (preset s)
          (configRef s) (nodes s) (f (edges s)) (usedIds s).

Definition setUsedIds (f : gset string -> gset string) (s : State) : State :=
  mkState (config s) (warning s) (status s) (loading s) (preset s)
          (configRef s) (nodes s) (edges s) (f (usedIds s)).

(** The effect [configRef.current = config], run after a render in
    which [config] changed and before the next event is handled. *)
Definition sync_configRef (s : State) : State :=
  mkState (config s) (warning s) (status s) (loading s) (preset s)
          (config s) (nodes s) (edges s) (usedIds s).

(** *** Node data updates *)

Definition with_data (d : NodeData) (n : Node) : Node :=
  mkNode (id n) (type n) (position n) d.

(** [nds.map(n => n.id === i ? {...n, data: f(n.data)} : n)] *)
Definition update_data_of (i : string) (f : NodeData -> NodeData)
  (nds : list Node) : list Node :=
  map (fun n => if String.eqb (id n) i then with_data (f (data n)) n else n) nds.

Definition data_with_window (v : option number) (d : NodeData) : NodeData :=
  mkData v (data_requireSame d) (data_dx d) (data_clock d) (data_cost d)
         (data_penalty d).

Definition data_with_requireSame (v : option bool) (d : NodeData) : NodeData :=
  mkData (data_window d) v (data_dx d) (data_clock d) (data_cost d)
         (data_penalty d).

Definition data_with_limits (dx clock cost : option number) (d : NodeData)
  : NodeData :=
  mkData (data_window d) (data_requireSame d) dx clock cost (data_penalty d).

Definition data_with_penalty (v : option number) (d : NodeData) : NodeData :=
  mkData (data_window d) (data_requireSame d) (data_dx d) (data_clock d)
         (data_cost d) v.

(** [{...n.data, [k]: v}] for the keys the limits control passes. *)
Definition data_with_key (k : string) (v : number) (d : NodeData) : NodeData :=
  if String.eqb k "dx" then
    data_with_limits (Some v) (data_clock d) (data_cost d) d
  else if String.eqb k "clock" then
    data_with_limits (data_dx d) (Some v) (data_cost d) d
  else if String.eqb k "cost" then
    data_with_limits (data_dx d) (data_clock d) (Some v) d
  else d.

(** [p.hard_limits?.k] *)
Definition limit_of (p : Config) (k : string) : option number :=
  hard_limits p ≫= fun h => h !! k.

(** *** Handlers *)

Definition onChangeWindow (v : number) (s : State) : State :=
  setNodes (update_data_of "gate" (data_with_window (Some v)))
           (setConfig (with_window v) s).

Definition onChangeSame (v : bool) (s : State) : State :=
  setNodes (update_data_of "gate" (data_with_requireSame (Some v)))
           (setConfig (with_require_same_side v) s).

Definition onChangeLimit (k : string) (v : number) (s : State) : State :=
  setNodes (update_data_of "limits" (data_with_key k v))
           (setConfig (fun c => with_hard_limits
                                  (<[k := v]> (or_empty (hard_limits c))) c) s).

Definition onChangePenalty (v : number) (s : State) : State :=
  setNodes (update_data_of "unmatched" (data_with_penalty (Some v)))
           (setConfig (with_unmatched_penalty v) s).

Definition preset_node (p : Config) (n : Node) : Node :=
  let d := data n in
  if String.eqb (id n) "gate" then
    with_data (data_with_requireSame (data_requireSame d)
                 (data_with_window (or_else (window p) (data_window d)) d)) n
  else if String.eqb (id n) "limits" then
    with_data (data_with_limits
                 (or_else (limit_of p "dx") (data_dx d))
                 (or_else (limit_of p "clock") (data_clock d))
                 (or_else (limit_of p "cost") (data_cost d)) d) n
  else if String.eqb (id n) "unmatched" then
    with_data (data_with_penalty
                 (or_else (unmatched_penalty p) (data_penalty d)) d) n
  else n.

Definition applyPreset (name : PresetName) (s : State) : State :=
  let p := PRESETS name in
  setNodes (map (preset_node p)) (setConfig (merge_preset p) (setPreset name s)).

(** [onConnect]; [addEdge] is the board library's function. *)
Definition onConnect (addEdge : Edge -> list Edge -> list Edge)
  (params : Edge) (s : State) : State :=
  setEdges (addEdge (mkEdge (source params) (target params)
                            (Some "smoothstep") (Some true))) s.

(** *** The library *)

Record LibraryItem : Type := mkItem {
  item_id : string;
  title : string;
  desc : string;
  item_type : string;
  unique : bool;
  item_data : NodeData;
}.

Definition library (c : Config) : list LibraryItem :=
  [ mkItem "input" "Input" "Dataset entry" "inputNode" true no_data;
    mkItem "gate" "Gate" "Window + side filter" "gateNode" true
      (data_with_requireSame (Some (default false (require_same_side c)))
         (data_with_window (Some (default 5%Q (window c))) no_data));
    mkItem "limits" "Limits" "dx / clock / cost caps" "limitsNode" true
      (data_with_limits (Some (default 5%Q (limit_of c "dx")))
                        (Some (default 3%Q (limit_of c "clock")))
                        (Some (default 12%Q (limit_of c "cost"))) no_data);
    mkItem "unmatched" "Unmatched" "Penalty control" "unmatchedNode" true
      (data_with_penalty (Some (default 20%Q (unmatched_penalty c))) no_data);
    mkItem "evaluate" "Evaluate" "Run the graph" "evaluateNode" true no_data ].

(** [usedIds.has(i) || nodes.some((n) => n.id === i)] *)
Definition used (i : string) (s : State) : bool :=
  bool_decide (i ∈ usedIds s) || existsb (fun n => String.eqb (id n) i) (nodes s).

Definition default_position (nextIndex : nat) : XY :=
  {| pos_x := inject_Z (-200 + Z.of_nat (nextIndex / 3) * 220);
     pos_y := inject_Z (40 + Z.of_nat (nextIndex mod 3) * 120) |}.

(** [baseX] and [baseY]: [position?.x ?? ...] and [position?.y ?? ...]. *)
Definition base_position (position : option XY) (nextIndex : nat) : XY :=
  {| pos_x := default (pos_x (default_position nextIndex)) (pos_x <$> position);
     pos_y := default (pos_y (default_position nextIndex)) (pos_y <$> position) |}.

Definition addFromLibrary (itemId : string) (position : option XY) (s : State)
  : State :=
  match List.find (fun i => String.eqb (item_id i) itemId) (library (config s)) with
  | None => s
  | Some item =>
      if unique item && used (item_id item) s then
        setWarning (Some (title item ++ " is already on the board.")) s
      else
        let nextIndex := length (nodes s) in
        let base := base_position position nextIndex in
        setUsedIds (fun prev => {[item_id item]} ∪ prev)
          (setNodes (fun nds => (nds ++ [mkNode (item_id item) (item_type item)
                                                base (item_data item)])%list) s)
  end.

(** The click handler of a library card: [if (!used) addFromLibrary(item.id)]. *)
Definition onClickCard (i : string) (s : State) : State :=
  if used i s then s else addFromLibrary i None s.

(** *** Evaluation *)

Definition remediation : string :=
  "Add Evaluate from the library, connect Input → Gate → Evaluate, then run.".

Definition evaluate_request (c : Config) : Request :=
  {| url := "/api/evaluate"; method := "POST"; body := stringify_config c |}.

(** [evaluate], from its call to the [await fetch(...)].  [isValidGraph]
    inside [evaluate] is the callback of the render that created this
    [evaluate] ([useCallback] on [edges] and [nodes]); [seen_nodes] and
    [seen_edges] are the nodes and edges of that render.  The result is
    the new state and the request handed to [fetch], if any. *)
Definition evaluate_call (seen_nodes : list Node) (seen_edges : list Edge)
  (s : State) : State * option Request :=
  if negb (isValidGraph seen_nodes seen_edges) then
    (setStatus None (setWarning (Some remediation) s), None)
  else
    (setLoading true (setStatus (Some "Running…") (setWarning None s)),
     Some (evaluate_request (configRef s))).

(** [evaluate], from the moment the awaited [fetch] settles. *)
Definition evaluate_settle {P : Type} (o : Outcome P) (s : State) : State :=
  setLoading false
    match awaited o with
    | Resolved _ => setStatus (Some "Evaluation succeeded") s
    | Rejected m =>
        setStatus (Some "Evaluation failed")
          (setWarning (Some (message_or m "Evaluation failed")) s)
    end.

(** The keys [LimitsNode] draws a slider for and passes to [onChange]:
    [["dx", "clock", "cost"].map((k) => ...)]. *)
Inductive LimitKey : Type := KeyDx | KeyClock | KeyCost.

Definition limit_key (k : LimitKey) : string :=
  match k with
  | KeyDx => "dx"
  | KeyClock => "clock"
  | KeyCost => "cost"
  end.

Definition onDrop (i : string) (position : XY) (s : State) : State :=
  if String.eqb i "" then s else addFromLibrary i (Some position) s.

(** *** A session on the board

    The component state together with what has left the page: the
    requests handed to [fetch], oldest first, and how many of them have
    not settled yet. *)

Record Session : Type := mkSession {
  ui : State;
  sent : list Request;
  pending : nat;
}.

Definition initial_session : Session :=
  {| ui := initial_state; sent := []; pending := 0 |}.

(** What can happen to the page.  [NodesChange] and [EdgesChange] are
    [onNodesChange] and [onEdgesChange]: the board library applies its
    changes (move, select, remove) to the list, here the function
    [apply].  [ClickRun] is a click on the Run button of the Evaluate
    node; the button calls the [evaluate] put into the node's data when
    the node was placed, and the event carries the nodes and edges that
    callback validates, so that what is proved of every session holds
    whichever graph the callback holds.  [Settle] is a pending [fetch]
    settling. *)
Inductive Event : Type :=
| Drop (i : string) (position : XY)
| ClickCard (i : string)
| Connect (addEdge : Edge -> list Edge -> list Edge) (params : Edge)
| NodesChange (apply : list Node -> list Node)
| EdgesChange (apply : list Edge -> list Edge)
| ChangeWindow (v : number)
| ChangeSame (v : bool)
| ChangeLimit (k : LimitKey) (v : number)
| ChangePenalty (v : number)
| SelectPreset (name : PresetName)
| ClickRun (seen_nodes : list Node) (seen_edges : list Edge)
| Settle (o : Outcome json).

Definition render (s : State) (w : Session) : Session :=
  {| ui := sync_configRef s; sent := sent w; pending := pending w |}.

Definition dispatch (e : Event) (w : Session) : Session :=
  match e with
  | Drop i position => render (onDrop i position (ui w)) w
  | ClickCard i => render (onClickCard i (ui w)) w
  | Connect addEdge params => render (onConnect addEdge params (ui w)) w
  | NodesChange apply => render (setNodes apply (ui w)) w
  | EdgesChange apply => render (setEdges apply (ui w)) w
  | ChangeWindow v => render (onChangeWindow v (ui w)) w
  | ChangeSame v => render (onChangeSame v (ui w)) w
  | ChangeLimit k v => render (onChangeLimit (limit_key k) v (ui w)) w
  | ChangePenalty v => render (onChangePenalty v (ui w)) w
  | SelectPreset name => render (applyPreset name (ui w)) w
  | ClickRun seen_nodes seen_edges =>
      match evaluate_call seen_nodes seen_edges (ui w) with
      | (s, Some r) =>
          {| ui := sync_configRef s;
             sent := (sent w ++ [r])%list;
             pending := S (pending w) |}
      | (s, None) => render s w
      end
  | Settle o =>
      match pending w with
      | O => w
      | S n =>
          {| ui := sync_configRef (evaluate_settle o (ui w));
             sent := sent w;
             pending := n |}
      end
  end.

Definition run_events (evs : list Event) (w : Session) : Session :=
  fold_left (fun w e => dispatch e w) evs w.

Inductive reachable : Session -> Prop :=
| reach_initial : reachable initial_session
| reach_dispatch w e : reachable w -> reachable (dispatch e w).

End Interactive.

(** ** The direct-edit surface *)

Module Workbench.

Record Config : Type := mkConfig {
  window : option number;
  require_same_side : option bool;
  weights : option dict;
  penalties : option dict;
  unmatched_penalty : option number;
  hard_limits : option dict;
}.

Record Kpis : Type := mkKpis {
  coverage : number;
  plausibility : number;
  stability : number;
  matched : number;
  unmatched_2015 : number;
  unmatched_2022 : number;
}.

Record Artifacts : Type := mkArtifacts {
  matches_path : option string;
  families_path : option string;
  segment_risk_path : option string;
}.

(** The parsed payload [data], as far as [run] reads it.  A payload on
    which reading [data.kpis] throws is a [Rejected] [parsed] field of
    the response, with the message of that error. *)
Record Payload : Type := mkPayload {
  data_kpis : option Kpis;
  data_matches_path : option string;
  data_families_path : option string;
  data_segment_risk_path : option string;
}.

Definition initial_config : Config :=
  {| window := Some 5%Q;
     require_same_side := Some false;
     weights := Some (<["dist" := 1%Q]> (<["clock" := 0.3%Q]>
                      (<["depth" := 0.05%Q]> (<["size" := 0.02%Q]> ∅))));
     penalties := Some (<["side" := 5%Q]> (<["type" := 2%Q]> ∅));
     unmatched_penalty := Some 20%Q;
     hard_limits := Some (<["dx" := 5%Q]> (<["clock" := 3%Q]>
                          (<["cost" := 12%Q]> ∅))) |}.

Record State : Type := mkState {
  config : Config;
  loading : bool;
  kpis : option Kpis;
  artifacts : option Artifacts;
  error : option string;
}.

Definition initial_state : State :=
  {| config := initial_config;
     loading := false;
     kpis := None;
     artifacts := None;
     error := None |}.

Definition setConfig (f : Config -> Config) (s : State) : State :=
  mkState (f (config s)) (loading s) (kpis s) (artifacts s) (error s).

Definition setLoading (b : bool) (s : State) : State :=
  mkState (config s) b (kpis s) (artifacts s) (error s).

Definition setKpis (k : option Kpis) (s : State) : State :=
  mkState (config s) (loading s) k (artifacts s) (error s).

Definition setArtifacts (a : option Artifacts) (s : State) : State :=
  mkState (config s) (loading s) (kpis s) a (error s).

Definition setError (e : option string) (s : State) : State :=
  mkState (config s) (loading s) (kpis s) (artifacts s) e.

(** [{...c, ...patch}] *)
Definition spread_config (c patch : Config) : Config :=
  {| window := or_else (window patch) (window c);
     require_same_side :=
       or_else (require_same_side patch) (require_same_side c);
     weights := or_else (weights patch) (weights c);
     penalties := or_else (penalties patch) (penalties c);
     unmatched_penalty :=
       or_else (unmatched_penalty patch) (unmatched_penalty c);
     hard_limits := or_else (hard_limits patch) (hard_limits c) |}.

Definition updateConfig (patch : Config) (s : State) : State :=
  setConfig (fun c => spread_config c patch) s.

(** The keys [updateNested] is called with. *)
Inductive NestedKey : Type := KWeights | KPenalties | KHardLimits.

(** [{...c, [key]: {...c[key], ...patch}}] *)
Definition update_nested (key : NestedKey) (patch : dict) (c : Config)
  : Config :=
  match key with
  | KWeights =>
      mkConfig (window c) (require_same_side c)
               (Some (spread_dict (or_empty (weights c)) patch))
               (penalties c) (unmatched_penalty c) (hard_limits c)
  | KPenalties =>
      mkConfig (window c) (require_same_side c) (weights c)
               (Some (spread_dict (or_empty (penalties c)) patch))
               (unmatched_penalty c) (hard_limits c)
  | KHardLimits =>
      mkConfig (window c) (require_same_side c) (weights c) (penalties c)
               (unmatched_penalty c)
               (Some (spread_dict (or_empty (hard_limits c)) patch))
  end.

Definition updateNested (key : NestedKey) (patch : dict) (s : State) : State :=
  setConfig (update_nested key patch) s.

(** [JSON.stringify(config)] *)
Definition stringify_config (c : Config) : json :=
  JObj (put_field "window" (JNum <$> window c)
       (put_field "require_same_side" (JBool <$> require_same_side c)
       (put_field "weights" (stringify_dict <$> weights c)
       (put_field "penalties" (stringify_dict <$> penalties c)
       (put_field "unmatched_penalty" (JNum <$> unmatched_penalty c)
       (put_field "hard_limits" (stringify_dict <$> hard_limits c) ∅)))))).

Definition evaluate_request (c : Config) : Request :=
  {| url := "/api/evaluate"; method := "POST"; body := stringify_config c |}.

(** [run], from its call to the [await fetch(...)]. *)
Definition run_call (s : State) : State * Request :=
  (setError None (setLoading true s), evaluate_request (config s)).

(** [run], from the moment the awaited [fetch] settles. *)
Definition run_settle (o : Outcome Payload) (s : State) : State :=
  setLoading false
    match awaited o with
    | Resolved data =>
        setArtifacts
          (Some (mkArtifacts (data_matches_path data)
                             (data_families_path data)
                             (data_segment_risk_path data)))
          (setKpis (data_kpis data) s)
    | Rejected m => setError (Some (message_or m "Evaluation failed")) s
    end.

(** A click on [<button onClick={run} disabled={loading}>]: a disabled
    button does not call its handler. *)
Definition onClickEvaluate (s : State) : State * option Request :=
  if loading s then (s, None)
  else let (s', r) := run_call s in (s', Some r).

(** *** A session on the form *)

Record Session : Type := mkSession {
  ui : State;
  sent : list Request;
  pending : nat;
}.

Definition initial_session : Session :=
  {| ui := initial_state; sent := []; pending := 0 |}.

Inductive Event : Type :=
| UpdateConfig (patch : Config)
| UpdateNested (key : NestedKey) (patch : dict)
| ClickEvaluate
| Settle (o : Outcome Payload).

Definition dispatch (e : Event) (w : Session) : Session :=
  match e with
  | UpdateConfig patch =>
      {| ui := updateConfig patch (ui w); sent := sent w; pending := pending w |}
  | UpdateNested key patch =>
      {| ui := updateNested key patch (ui w); sent := sent w;
         pending := pending w |}
  | ClickEvaluate =>
      match onClickEvaluate (ui w) with
      | (s, Some r) =>
          {| ui := s; sent := (sent w ++ [r])%list; pending := S (pending w) |}
      | (s, None) => {| ui := s; sent := sent w; pending := pending w |}
      end
  | Settle o =>
      match pending w with
      | O => w
      | S n => {| ui := run_settle o (ui w); sent := sent w; pending := n |}
      end
  end.

Definition run_events (evs : list Event) (w : Session) : Session :=
  fold_left (fun w e => dispatch e w) evs w.

Inductive reachable : Session -> Prop :=
| reach_initial : reachable initial_session
| reach_dispatch w e : reachable w -> reachable (dispatch e w).

End Workbench.

(** ** Vocabulary of the properties *)

(** The board after the edge from [s] to [t] is deleted. *)
Definition without_edge (s t : string) (edges : list Interactive.Edge)
  : list Interactive.Edge :=
  List.filter (fun e => negb (String.eqb (Interactive.source e) s
                              && String.eqb (Interactive.target e) t)) edges.

(** The board after the node [i] is deleted. *)
Definition without_node (i : string) (nodes : list Interactive.Node)
  : list Interactive.Node :=
  List.filter (fun n => negb (String.eqb (Interactive.id n) i)) nodes.

(** The three keys of [hard_limits]. *)
Definition limit_keys : gset string := {["dx"; "clock"; "cost"]}.

(** The stages of the library with their titles; the parameters in an
    item's data follow the config, its id and title do not. *)
Definition stages : list (string * string) :=
  map (fun item => (Interactive.item_id item, Interactive.title item))
      (Interactive.library Interactive.initial_config).

(** The notice [addFromLibrary] leaves in [warning] when it refuses. *)
Definition already_placed (title : string) : string :=
  title ++ " is already on the board.".

(** The phases of an evaluation attempt, read off the state the way
    the pages render it: the interactive header shows the running chip
    while [loading], else the chip of [status]; the form shows
    [Evaluating...] while [loading], else the error, else the results. *)
Inductive Phase : Type := Idle | Submitting | Succeeded | Failed.

Definition phase (s : Interactive.State) : Phase :=
  if Interactive.loading s then Submitting
  else match Interactive.status s with
       | Some st =>
           if String.eqb st "Evaluation succeeded" then Succeeded
           else if String.eqb st "Evaluation failed" then Failed
           else Idle
       | None => Idle
       end.

Definition form_phase (s : Workbench.State) : Phase :=
  if Workbench.loading s then Submitting
  else match Workbench.error s, Workbench.artifacts s with
       | Some _, _ => Failed
       | None, Some _ => Succeeded
       | None, None => Idle
       end.

(** The ways an attempt fails: the transport fails with an error whose
    message is [m]; the engine answers with a non-success status and the
    body [m]; the engine answers with success and a payload the parser
    rejects with message [m]. *)
Definition transport_failure {P : Type} (m : string) : Outcome P :=
  Rejected m.

Definition engine_failure {P : Type} (m : string) (payload : js_result P)
  : Outcome P :=
  Resolved (mkResponse false (Resolved m) payload).

Definition unparseable {P : Type} (body : js_result string) (m : string)
  : Outcome P :=
  Resolved (mkResponse true body (Rejected m)).

(** The graph of the validator scenario: nodes [input], [gate],
    [evaluate], edges [input -> gate] and [gate -> evaluate]. *)
Definition scenario_nodes : list Interactive.Node :=
  [Interactive.mkNode "input" "inputNode" (Interactive.default_position 0)
     Interactive.no_data;
   Interactive.mkNode "gate" "gateNode" (Interactive.default_position 1)
     Interactive.no_data;
   Interactive.mkNode "evaluate" "evaluateNode" (Interactive.default_position 2)
     Interactive.no_data].

Definition scenario_edges : list Interactive.Edge :=
  [Interactive.mkEdge "input" "gate" (Some "smoothstep") (Some true);
   Interactive.mkEdge "gate" "evaluate" (Some "smoothstep") (Some true)].

(** The five top-level fields of the config schema, and the fields of
    the form's config. *)
Definition schema_fields : gset string :=
  {["window"; "require_same_side"; "weights"; "unmatched_penalty";
    "hard_limits"]}.

Definition form_fields : gset string :=
  {["window"; "require_same_side"; "weights"; "penalties";
    "unmatched_penalty"; "hard_limits"]}.

(** Every field of the config has a value. *)
Definition populated (c : Interactive.Config) : Prop :=
  is_Some (Interactive.window c)
  /\ is_Some (Interactive.require_same_side c)
  /\ is_Some (Interactive.weights c)
  /\ is_Some (Interactive.unmatched_penalty c)
  /\ is_Some (Interactive.hard_limits c).

Definition form_populated (c : Workbench.Config) : Prop :=
  is_Some (Workbench.window c)
  /\ is_Some (Workbench.require_same_side c)
  /\ is_Some (Workbench.weights c)
  /\ is_Some (Workbench.penalties c)
  /\ is_Some (Workbench.unmatched_penalty c)
  /\ is_Some (Workbench.hard_limits c).

(** ** More of the pages, and the vocabulary of their properties *)

Section BoardVocabulary.
Import Interactive.

(** What identifies a node beyond its place on the canvas. *)
Definition node_key (n : Node) : string * string * NodeData :=
  (id n, type n, data n).

(** A change of the node list such as the board library makes when a
    node is moved, selected or deleted: what it returns are some of the
    nodes it was given, in their order, each with its id, type and
    data. *)
Definition tame (apply : list Node -> list Node) : Prop :=
  forall nds, node_key <$> apply nds `sublist_of` node_key <$> nds.

Definition tame_event (e : Event) : Prop :=
  match e with
  | NodesChange apply => tame apply
  | _ => True
  end.

(** A connection function such as the board library's [addEdge]: it
    keeps the edges it is given, and the result has an edge with the
    source and target of the connection. *)
Definition adds_connection (addEdge : Edge -> list Edge -> list Edge) : Prop :=
  forall e eds,
    (forall e', e' ∈ eds -> e' ∈ addEdge e eds)
    /\ exists e', e' ∈ addEdge e eds
                  /\ source e' = source e /\ target e' = target e.

(** The ids of the library's stages, and the node type of each. *)
Definition stage_ids : gset string := list_to_set (fst <$> stages).

Definition stage_type (i : string) : option string :=
  item_type
    <$> List.find (fun it => String.eqb (item_id it) i) (library initial_config).

(** The board holds each stage at most once, every node on it was
    placed from the library, and only library stages were ever placed. *)
Definition board_ok (s : State) : Prop :=
  NoDup (id <$> nodes s)
  /\ (forall n, n ∈ nodes s ->
                id n ∈ usedIds s /\ stage_type (id n) = Some (type n))
  /\ usedIds s ⊆ stage_ids.

(** The parameters a node shows are those of the config. *)
Definition synced (c : Config) (n : Node) : Prop :=
  (id n = "gate" ->
   data_window (data n) = window c
   /\ data_requireSame (data n) = require_same_side c)
  /\ (id n = "limits" ->
      data_dx (data n) = limit_of c "dx"
      /\ data_clock (data n) = limit_of c "clock"
      /\ data_cost (data n) = limit_of c "cost")
  /\ (id n = "unmatched" -> data_penalty (data n) = unmatched_penalty c).

Definition has_limits (c : Config) : Prop :=
  is_Some (limit_of c "dx") /\ is_Some (limit_of c "clock")
  /\ is_Some (limit_of c "cost").

(** The [min] and [max] of the sliders of [GateNode], [UnmatchedNode]
    and [LimitsNode]. *)
Definition window_range : Q * Q := (1%Q, 15%Q).

Definition penalty_range : Q * Q := (5%Q, 50%Q).

Definition limit_range (k : string) : Q * Q :=
  (if String.eqb k "cost" then 5%Q else 0.5%Q,
   if String.eqb k "cost" then 25%Q else 10%Q).

Definition within (r : Q * Q) (v : number) : Prop :=
  (fst r <= v)%Q /\ (v <= snd r)%Q.

(** A slider event carries a value of the slider's range. *)
Definition slider_event (e : Event) : Prop :=
  match e with
  | ChangeWindow v => within window_range v
  | ChangePenalty v => within penalty_range v
  | ChangeLimit k v => within (limit_range (limit_key k)) v
  | _ => True
  end.

Definition config_within (c : Config) : Prop :=
  (forall v, window c = Some v -> within window_range v)
  /\ (forall v, unmatched_penalty c = Some v -> within penalty_range v)
  /\ (forall k v, or_empty (hard_limits c) !! k = Some v ->
                  within (limit_range k) v).

(** A string as a condition: [s && ...]. *)
Definition truthy (s : option string) : bool :=
  match s with
  | Some x => negb (String.eqb x "")
  | None => false
  end.

(** The chips of the header, each with its style class and its text:
    [loading && ...], [status && !loading && ...], [warning && ...]. *)
Definition status_class (st : string) : string :=
  if String.eqb st "Evaluation succeeded" then "chipSuccess"
  else if String.eqb st "Evaluation failed" then "chipWarn"
  else "".

Definition header_chips (s : State) : list (string * string) :=
  ((if loading s then [("chipRunning", "Evaluating…")] else [])
   ++ (if truthy (status s) && negb (loading s)
       then [(status_class (default "" (status s)), default "" (status s))]
       else [])
   ++ (if truthy (warning s) then [("chipWarn", "Check connections")] else []))%list.

End BoardVocabulary.

Section FormVocabulary.

(** What the inputs of the form show: [config.window ?? 5],
    [config.require_same_side ?? false], [config.weights?.[k] ?? 0], ... *)
Definition shown_window (c : Workbench.Config) : number :=
  default 5%Q (Workbench.window c).

Definition shown_same_side (c : Workbench.Config) : bool :=
  default false (Workbench.require_same_side c).

Definition shown_unmatched (c : Workbench.Config) : number :=
  default 20%Q (Workbench.unmatched_penalty c).

Definition shown_nested (o : option dict) (k : string) : number :=
  default 0%Q (o ≫= fun d => d !! k).


(** The label of the evaluate button. *)
Definition button_label (s : Workbench.State) : string :=
  if Workbench.loading s then "Evaluating..." else "Evaluate graph".




End FormVocabulary.

(** ** The wiring of the Run button *)

Section PageWiring.
Import Interactive.

(** The page with the one thing its state does not show: the
    [evaluate] the Run button calls.  The button's handler is the
    [onEvaluate: () => evaluate()] of the library memo, copied into the
    data of the Evaluate node by [addFromLibrary]; no handler writes the
    data of that node again.  That [evaluate], and the [isValidGraph]
    inside it, are those of the render in which the node was placed:
    [onEvaluate] holds the nodes and edges of that render, once the
    stage has been placed. *)
Record Page : Type := mkPage {
  session : Session;
  onEvaluate : option (list Node * list Edge);
}.

Definition initial_page : Page :=
  {| session := initial_session; onEvaluate := None |}.

(** Whether the event places the Evaluate stage: a drop or a card click
    for [evaluate] that [addFromLibrary] does not refuse. *)
Definition places_evaluate (e : Event) (s : State) : bool :=
  match e with
  | Drop i _ => String.eqb i "evaluate" && negb (used "evaluate" s)
  | ClickCard i => String.eqb i "evaluate" && negb (used "evaluate" s)
  | _ => false
  end.

(** The Run button is on the page while the Evaluate node is. *)
Definition run_button (s : State) : bool :=
  existsb (fun n => String.eqb (id n) "evaluate") (nodes s).

(** What happens on the page: an event handled as in [dispatch], or a
    click on the Run button.  A click on Run is [ClickRunButton] only: a
    [ClickRun] wrapped in [Handle] is not something the page does, and
    does nothing. *)
Inductive PageEvent : Type :=
| Handle (e : Event)
| ClickRunButton.

Definition page_dispatch (a : PageEvent) (p : Page) : Page :=
  match a with
  | ClickRunButton =>
      match onEvaluate p with
      | Some (ns, es) =>
          if run_button (ui (session p))
          then {| session := dispatch (ClickRun ns es) (session p);
                  onEvaluate := onEvaluate p |}
          else p
      | None => p
      end
  | Handle (ClickRun _ _) => p
  | Handle e =>
      {| session := dispatch e (session p);
         onEvaluate :=
           if places_evaluate e (ui (session p))
           then Some (nodes (ui (session p)), edges (ui (session p)))
           else onEvaluate p |}
  end.

Definition page_run (acts : list PageEvent) (p : Page) : Page :=
  fold_left (fun p a => page_dispatch a p) acts p.

(** The library's [addEdge] on edges that are not on the board yet. *)
Definition append_edge (e : Edge) (eds : list Edge) : list Edge :=
  (eds ++ [e])%list.

(** The scenario of two clicks on Run: the input and the gate are
    placed and connected, the Evaluate stage is placed and the gate is
    connected to it, and Run is clicked twice. *)
Definition two_run_clicks : list PageEvent :=
  [Handle (ClickCard "input"); Handle (ClickCard "gate");
   Handle (Connect append_edge (mkEdge "input" "gate" None None));
   Handle (ClickCard "evaluate");
   Handle (Connect append_edge (mkEdge "gate" "evaluate" None None));
   ClickRunButton; ClickRunButton].

(** The request carries the config: every field of the config is in
    the body under its key, and a field without a value has no key. *)
Definition body_holds (r : Request) (c : Config) : Prop :=
  let m := json_fields (body r) in
  m !! "window" = JNum <$> window c
  /\ m !! "require_same_side" = JBool <$> require_same_side c
  /\ m !! "weights" = stringify_dict <$> weights c
  /\ m !! "unmatched_penalty" = JNum <$> unmatched_penalty c
  /\ m !! "hard_limits" = stringify_dict <$> hard_limits c.

End PageWiring.

(** * Properties *)

(** ** The validator *)

Section Validator.
Import Interactive.

(** The key [isValidGraph] looks up is the key of exactly the edges from
    [input] to [gate]: no other pair of ids is written the same way. *)
Lemma arrow_key_inj (s t : string) :
  s ++ "->" ++ t = "input->gate" -> s = "input" /\ t = "gate".
Proof.
  assert (step : forall (a b : Ascii.ascii) (u v w : string),
             String a u ++ v = String b w -> a = b /\ u ++ v = w).
  { intros a b u v w E. change (String a (u ++ v) = String b w) in E.
    by injection E. }
  assert (nil_l : forall v : string, "" ++ v = v) by reflexivity.
  intros H.
  do 5 (destruct s as [|? s];
        [rewrite nil_l in H; discriminate H | apply step in H as [-> H]]).
  destruct s as [|? s].
  - rewrite nil_l in H. do 2 apply step in H as [_ H].
    rewrite nil_l in H. done.
  - exfalso. apply step in H as [-> H].
    do 5 (destruct s as [|? s];
          [rewrite nil_l in H; discriminate H | apply step in H as [-> H]]).
    destruct s; discriminate H.
Qed.

Lemma some_node_iff (i : string) (nodes : list Node) :
  existsb (fun n => String.eqb (id n) i) nodes = true
  <-> exists n, n ∈ nodes /\ id n = i.
Proof.
  rewrite existsb_exists. split; intros (n & Hn & E); exists n.
  - apply list_elem_of_In in Hn. by apply String.eqb_eq in E.
  - apply list_elem_of_In in Hn. by apply String.eqb_eq in E.
Qed.

Lemma some_edge_into_iff (i : string) (edges : list Edge) :
  existsb (fun e => String.eqb (target e) i) edges = true
  <-> exists e, e ∈ edges /\ target e = i.
Proof.
  rewrite existsb_exists. split; intros (e & He & E); exists e.
  - apply list_elem_of_In in He. by apply String.eqb_eq in E.
  - apply list_elem_of_In in He. by apply String.eqb_eq in E.
Qed.

Lemma input_gate_key_iff (edges : list Edge) :
  "input->gate" ∈ (list_to_set (map edge_key edges) : gset string)
  <-> exists e, e ∈ edges /\ source e = "input" /\ target e = "gate".
Proof.
  rewrite elem_of_list_to_set, list_elem_of_In, in_map_iff. split.
  - intros (e & K & He). exists e. split; [by apply list_elem_of_In|].
    by apply arrow_key_inj.
  - intros (e & He & Es & Et). exists e. split; [|by apply list_elem_of_In].
    unfold edge_key. by rewrite Es, Et.
Qed.

Lemma isValidGraph_iff (nodes : list Node) (edges : list Edge) :
  isValidGraph nodes edges = true
  <-> (exists n, n ∈ nodes /\ id n = "evaluate")
      /\ (exists e, e ∈ edges /\ source e = "input" /\ target e = "gate")
      /\ (exists e, e ∈ edges /\ target e = "evaluate").
Proof.
  unfold isValidGraph.
  rewrite !andb_true_iff, bool_decide_eq_true, some_node_iff,
    some_edge_into_iff, input_gate_key_iff.
  tauto.
Qed.

Lemma without_edge_spec (s t : string) (edges : list Edge) (e : Edge) :
  e ∈ without_edge s t edges <-> e ∈ edges /\ ~ (source e = s /\ target e = t).
Proof.
  unfold without_edge.
  rewrite !list_elem_of_In, filter_In, negb_true_iff, andb_false_iff,
    !String.eqb_neq.
  split; intros [He Hne]; (split; [done|]).
  - intros [??]. tauto.
  - destruct (decide (source e = s)); [|by left].
    right. intros ?. tauto.
Qed.

Lemma without_node_spec (i : string) (nodes : list Node) (n : Node) :
  n ∈ without_node i nodes <-> n ∈ nodes /\ id n <> i.
Proof.
  unfold without_node.
  by rewrite !list_elem_of_In, filter_In, negb_true_iff, String.eqb_neq.
Qed.

(** While the Evaluate stage can still be placed, no node has the id
    [evaluate], and the validator rejects the graph of that render. *)
Lemma isValidGraph_before_placement (s : State) :
  used "evaluate" s = false -> isValidGraph (nodes s) (edges s) = false.
Proof.
  intros Hu. apply not_true_is_false. rewrite isValidGraph_iff.
  intros (Hn & _). apply some_node_iff in Hn.
  unfold used in Hu. apply orb_false_iff in Hu as [_ Hu]. congruence.
Qed.

(** C1.  [isValidGraph] accepts a graph exactly when a node with id
    [evaluate] is on the board, an edge leads from [input] to [gate],
    and some edge ends at [evaluate].  So every graph whose nodes are
    [input], [gate], [evaluate] and whose edges are [input -> gate] and
    [gate -> evaluate] is accepted; and no graph is accepted once its
    [input -> gate] edges are deleted, or once its [evaluate] node is
    deleted. *)
Theorem validator_contract :
  (forall nodes edges,
      isValidGraph nodes edges = true
      <-> (exists n, n ∈ nodes /\ id n = "evaluate")
          /\ (exists e, e ∈ edges /\ source e = "input" /\ target e = "gate")
          /\ (exists e, e ∈ edges /\ target e = "evaluate"))
  /\ (forall nodes edges,
         (forall i, (exists n, n ∈ nodes /\ id n = i)
                    <-> i ∈ ["input"; "gate"; "evaluate"]) ->
         (forall s t, (exists e, e ∈ edges /\ source e = s /\ target e = t)
                      <-> (s, t) ∈ [("input", "gate"); ("gate", "evaluate")]) ->
         isValidGraph nodes edges = true)
  /\ (forall nodes edges,
         isValidGraph nodes (without_edge "input" "gate" edges) = false)
  /\ (forall nodes edges,
         isValidGraph (without_node "evaluate" nodes) edges = false).
Proof.
  split; [exact isValidGraph_iff|]. split; [|split].
  - intros nodes edges Hn He. apply isValidGraph_iff. split; [|split].
    + apply Hn. set_solver +.
    + destruct (proj2 (He "input" "gate")) as (e & ? & ? & ?); [set_solver +|].
      by exists e.
    + destruct (proj2 (He "gate" "evaluate")) as (e & ? & ? & ?); [set_solver +|].
      by exists e.
  - intros nodes edges. apply not_true_is_false. rewrite isValidGraph_iff.
    intros (_ & (e & He & Es & Et) & _).
    apply without_edge_spec in He. tauto.
  - intros nodes edges. apply not_true_is_false. rewrite isValidGraph_iff.
    intros ((n & Hn & E) & _).
    apply without_node_spec in Hn. tauto.
Qed.

(** The graph of the scenario is accepted. *)
Lemma validator_contract_witness :
  isValidGraph scenario_nodes scenario_edges = true.
Proof.
  apply (proj1 (proj2 validator_contract)); unfold scenario_nodes, scenario_edges.
  - intros i. set_unfold. split.
    + intros (n & Hn & <-). destruct Hn as [-> | [-> | [-> | []]]]; simpl; tauto.
    + intros [-> | [-> | [-> | []]]];
        first [ by eexists; split; [left|]
              | by eexists; split; [right; left|]
              | by eexists; split; [right; right; left|] ].
  - intros s t. set_unfold. split.
    + intros (e & He & <- & <-). destruct He as [-> | [-> | []]]; simpl; tauto.
    + intros [E | [E | []]]; injection E as -> ->;
        first [ by eexists; split; [left|]
              | by eexists; split; [right; left|] ].
Defined.

End Validator.

(** ** Placing stages from the library *)

Section Library.
Import Interactive.

Lemma used_iff (i : string) (s : State) :
  used i s = true <-> i ∈ usedIds s \/ exists n, n ∈ nodes s /\ id n = i.
Proof.
  unfold used. by rewrite orb_true_iff, bool_decide_eq_true, some_node_iff.
Qed.

Lemma stages_find (i t : string) (c : Config) :
  (i, t) ∈ stages ->
  exists item,
    List.find (fun it => String.eqb (item_id it) i) (library c) = Some item
    /\ item_id item = i /\ title item = t /\ unique item = true.
Proof.
  unfold stages. simpl. set_unfold.
  intros [E | [E | [E | [E | [E | []]]]]]; injection E as -> ->;
    eexists; (split; [reflexivity|]); done.
Qed.

Lemma unknown_find (i : string) (c : Config) :
  (forall t, (i, t) ∉ stages) ->
  List.find (fun it => String.eqb (item_id it) i) (library c) = None.
Proof.
  intros Hi. unfold library. cbn [List.find item_id].
  repeat match goal with
         | |- context [String.eqb ?a i] =>
             destruct (String.eqb_spec a i) as [E | _];
             [exfalso; subst i; eapply Hi; apply list_elem_of_In;
              unfold stages; simpl; eauto 10|]
         end.
  reflexivity.
Qed.

Lemma addFromLibrary_used (i t : string) (pos : option XY) (s : State) :
  (i, t) ∈ stages -> used i s = true ->
  addFromLibrary i pos s = setWarning (Some (already_placed t)) s.
Proof.
  intros Hi Hu. destruct (stages_find i t (config s) Hi) as (item & F & <- & <- & U).
  unfold addFromLibrary. by rewrite F, U, Hu.
Qed.

Lemma addFromLibrary_fresh (i t : string) (pos : option XY) (s : State) :
  (i, t) ∈ stages -> used i s = false ->
  exists item,
    List.find (fun it => String.eqb (item_id it) i) (library (config s))
    = Some item
    /\ item_id item = i
    /\ addFromLibrary i pos s
       = setUsedIds (fun prev => {[i]} ∪ prev)
           (setNodes
              (fun nds =>
                 (nds ++ [mkNode i (item_type item)
                            (base_position pos (length (nodes s)))
                            (item_data item)])%list) s).
Proof.
  intros Hi Hu. destruct (stages_find i t (config s) Hi) as (item & F & <- & <- & U).
  exists item. split; [done|]. split; [done|].
  unfold addFromLibrary. by rewrite F, U, Hu.
Qed.

Lemma addFromLibrary_unknown (i : string) (pos : option XY) (s : State) :
  (forall t, (i, t) ∉ stages) -> addFromLibrary i pos s = s.
Proof.
  intros Hi. unfold addFromLibrary. by rewrite (unknown_find i (config s) Hi).
Qed.

Lemma config_addFromLibrary (i : string) (pos : option XY) (s : State) :
  config (addFromLibrary i pos s) = config s.
Proof.
  unfold addFromLibrary. destruct (List.find _ _) as [item|]; [|done].
  by destruct (unique item && used (item_id item) s).
Qed.

Lemma usedIds_addFromLibrary (i : string) (pos : option XY) (s : State) :
  usedIds s ⊆ usedIds (addFromLibrary i pos s).
Proof.
  unfold addFromLibrary.
  destruct (List.find _ _) as [item|]; [|done].
  destruct (unique item && used (item_id item) s); simpl; set_solver +.
Qed.

Lemma usedIds_dispatch (e : Event) (w : Session) :
  usedIds (ui w) ⊆ usedIds (ui (dispatch e w)).
Proof.
  destruct e; simpl; try done.
  - unfold onDrop. destruct (String.eqb i ""); [done|].
    apply usedIds_addFromLibrary.
  - unfold onClickCard. destruct (used i (ui w)); [done|].
    apply usedIds_addFromLibrary.
  - unfold evaluate_call.
    by destruct (negb (isValidGraph seen_nodes seen_edges)).
  - destruct (pending w); [done|]. unfold evaluate_settle.
    by destruct (awaited o).
Qed.

Lemma usedIds_run_events (evs : list Event) (w : Session) :
  usedIds (ui w) ⊆ usedIds (ui (run_events evs w)).
Proof.
  revert w. induction evs as [|e evs IH]; intros w; [done|].
  simpl. etrans; [apply (usedIds_dispatch e)|apply IH].
Qed.

(** C7, as the code has it.  For a stage of the library [addFromLibrary]
    refuses exactly when the stage's id is in [usedIds] or a node with
    that id is on the board: it then only sets the notice, and nodes,
    edges and [usedIds] stay as they were.  Otherwise it appends the
    library item as a new node and records the id in [usedIds]. *)
Theorem addFromLibrary_contract (i t : string) (pos : option XY) (s : State) :
  (i, t) ∈ stages ->
  (used i s = true <-> i ∈ usedIds s \/ exists n, n ∈ nodes s /\ id n = i)
  /\ (used i s = true ->
      addFromLibrary i pos s = setWarning (Some (already_placed t)) s
      /\ nodes (addFromLibrary i pos s) = nodes s
      /\ edges (addFromLibrary i pos s) = edges s
      /\ usedIds (addFromLibrary i pos s) = usedIds s)
  /\ (used i s = false ->
      exists item,
        List.find (fun it => String.eqb (item_id it) i) (library (config s))
        = Some item
        /\ nodes (addFromLibrary i pos s)
           = (nodes s ++ [mkNode i (item_type item)
                            (base_position pos (length (nodes s)))
                            (item_data item)])%list
        /\ edges (addFromLibrary i pos s) = edges s
        /\ usedIds (addFromLibrary i pos s) = {[i]} ∪ usedIds s
        /\ warning (addFromLibrary i pos s) = warning s).
Proof.
  intros Hi. split; [apply used_iff|]. split.
  - intros Hu. by rewrite (addFromLibrary_used i t pos s Hi Hu).
  - intros Hu.
    destruct (addFromLibrary_fresh i t pos s Hi Hu) as (item & F & _ & ->).
    by exists item.
Qed.

(** On the empty board the gate is placed at the first default position. *)
Lemma addFromLibrary_contract_witness :
  nodes (addFromLibrary "gate" None initial_state)
  = [mkNode "gate" "gateNode" (default_position 0)
       (mkData (Some 5%Q) (Some false) None None None None)].
Proof.
  assert (Hi : ("gate", "Gate") ∈ stages).
  { unfold stages. simpl. set_solver +. }
  destruct (addFromLibrary_contract "gate" "Gate" None initial_state Hi)
    as (_ & _ & Hfresh).
  destruct (Hfresh eq_refl) as (item & F & Hn & _).
  rewrite Hn. injection F as <-. reflexivity.
Defined.

(** C7 as the claim states it fails: after the gate is placed and its
    node deleted, no gate is on the board, and placing the gate is still
    refused with the notice. *)
Lemma addFromLibrary_refuses_deleted_stage :
  let w := run_events [ClickCard "gate"; NodesChange (without_node "gate")]
                      initial_session in
  nodes (ui w) = []
  /\ addFromLibrary "gate" None (ui w)
     = setWarning (Some "Gate is already on the board.") (ui w)
  /\ nodes (addFromLibrary "gate" None (ui w)) = [].
Proof. vm_compute. done. Qed.

(** C10.  No event removes an id from [usedIds].  Placing a stage
    records its id there, and from then on, whatever happens to the
    board (also the deletion of the node), placing the stage again is
    refused with the notice and leaves the nodes as they are, by a drop
    as well, and the stage's library card does nothing. *)
Theorem usedIds_only_grows :
  (forall e w, usedIds (ui w) ⊆ usedIds (ui (dispatch e w)))
  /\ (forall evs w, usedIds (ui w) ⊆ usedIds (ui (run_events evs w)))
  /\ (forall i t pos s,
         (i, t) ∈ stages -> used i s = false ->
         i ∈ usedIds (addFromLibrary i pos s))
  /\ (forall i t w evs pos,
         (i, t) ∈ stages -> i ∈ usedIds (ui w) ->
         let s := ui (run_events evs w) in
         addFromLibrary i pos s = setWarning (Some (already_placed t)) s
         /\ nodes (addFromLibrary i pos s) = nodes s
         /\ onClickCard i s = s
         /\ (forall xy, nodes (onDrop i xy s) = nodes s)).
Proof.
  split; [exact usedIds_dispatch|]. split; [exact usedIds_run_events|]. split.
  - intros i t pos s Hi Hu.
    destruct (addFromLibrary_fresh i t pos s Hi Hu) as (item & _ & _ & ->).
    simpl. set_solver +.
  - intros i t w evs pos Hi Hin s.
    assert (Hu : used i s = true).
    { apply used_iff. left. by apply (usedIds_run_events evs w). }
    rewrite (addFromLibrary_used i t pos s Hi Hu).
    split; [done|]. split; [done|]. split.
    + unfold onClickCard. by rewrite Hu.
    + intros xy. unfold onDrop. destruct (String.eqb i ""); [done|].
      by rewrite (addFromLibrary_used i t (Some xy) s Hi Hu).
Qed.

(** The gate is placed, its node is deleted, and the gate cannot be
    placed again. *)
Lemma usedIds_only_grows_witness :
  let w := dispatch (ClickCard "gate") initial_session in
  let s := ui (run_events [NodesChange (without_node "gate")] w) in
  nodes s = []
  /\ addFromLibrary "gate" None s = setWarning (Some (already_placed "Gate")) s
  /\ nodes (addFromLibrary "gate" None s) = nodes s.
Proof.
  intros w s.
  assert (Hi : ("gate", "Gate") ∈ stages).
  { unfold stages. simpl. set_solver +. }
  destruct usedIds_only_grows as (_ & _ & Hrec & Hkeep).
  assert (Hin : "gate" ∈ usedIds (ui w)).
  { apply (Hrec "gate" "Gate" None initial_state Hi). reflexivity. }
  destruct (Hkeep "gate" "Gate" w [NodesChange (without_node "gate")] None
              Hi Hin) as (Hadd & Hn & _ & _).
  split; [reflexivity|]. split; [exact Hadd|exact Hn].
Defined.

End Library.

(** ** Preset merge *)

Section Presets.
Import Interactive.

Lemma spread_dict_lookup (a b : dict) (k : string) :
  spread_dict a b !! k
  = match b !! k with
    | Some v => Some v
    | None => a !! k
    end.
Proof.
  unfold spread_dict. rewrite lookup_union.
  by destruct (b !! k), (a !! k).
Qed.

Lemma spread_dict_assoc (a b c : dict) :
  spread_dict (spread_dict a b) c = spread_dict a (spread_dict b c).
Proof. unfold spread_dict. by rewrite (assoc_L (∪)). Qed.

Lemma or_else_assoc {A : Type} (c b a : option A) :
  or_else c (or_else b a) = or_else (or_else c b) a.
Proof. by destruct c, b, a. Qed.

Lemma merge_preset_seq (p1 p2 c : Config) :
  merge_preset p2 (merge_preset p1 c) = merge_preset (merge_preset p2 p1) c.
Proof.
  unfold merge_preset, with_hard_limits, with_weights, spread_config; simpl.
  f_equal; try apply or_else_assoc.
  - f_equal. apply spread_dict_assoc.
  - f_equal. apply spread_dict_assoc.
Qed.

Lemma spread_dict_absorb (c b a : dict) :
  dom b ⊆ dom a -> spread_dict (spread_dict c b) a = spread_dict c a.
Proof.
  intros Hd. apply map_eq. intros k. rewrite !spread_dict_lookup.
  destruct (a !! k) eqn:Ea; [done|].
  assert (Hb : b !! k = None).
  { apply not_elem_of_dom. intros Hk. apply Hd in Hk.
    apply elem_of_dom in Hk as [v Hv]. congruence. }
  by rewrite Hb.
Qed.

(** The bundles of the catalog define the same fields and keys, so a
    later preset hides an earlier one. *)
Lemma merge_preset_catalog (n1 n2 : PresetName) (c : Config) :
  merge_preset (PRESETS n2) (merge_preset (PRESETS n1) c)
  = merge_preset (PRESETS n2) c.
Proof.
  unfold merge_preset, with_hard_limits, with_weights, spread_config.
  cbn [window require_same_side weights unmatched_penalty hard_limits or_empty
       default].
  f_equal.
  - by destruct n2.
  - by destruct n2, n1.
  - f_equal. apply spread_dict_absorb.
    destruct n1, n2; simpl; rewrite !dom_insert_L; set_solver +.
  - by destruct n2.
  - f_equal. apply spread_dict_absorb.
    destruct n1, n2; simpl; rewrite !dom_insert_L; set_solver +.
Qed.

Lemma config_applyPreset (name : PresetName) (s : State) :
  config (applyPreset name s) = merge_preset (PRESETS name) (config s).
Proof. reflexivity. Qed.

Lemma lenient_over (h : dict) :
  dom h ⊆ limit_keys ->
  spread_dict h (or_empty (hard_limits (PRESETS Lenient)))
  = or_empty (hard_limits (PRESETS Lenient)).
Proof.
  intros Hdom. apply map_eq. intros k. rewrite spread_dict_lookup.
  destruct (or_empty (hard_limits (PRESETS Lenient)) !! k) eqn:E; [done|].
  apply not_elem_of_dom. intros Hk. apply Hdom in Hk.
  unfold limit_keys in Hk.
  apply elem_of_union in Hk as [Hk | Hk];
    [apply elem_of_union in Hk as [Hk | Hk]|];
    apply elem_of_singleton in Hk; subst k; discriminate E.
Qed.

(** Only [dx], [clock] and [cost] ever become keys of [hard_limits]. *)
Lemma limit_keys_dispatch (e : Event) (w : Session) :
  dom (or_empty (hard_limits (config (ui w)))) ⊆ limit_keys ->
  dom (or_empty (hard_limits (config (ui (dispatch e w))))) ⊆ limit_keys.
Proof.
  intros Hk. destruct e; simpl; try done.
  - unfold onDrop. destruct (String.eqb i ""); [done|].
    by rewrite config_addFromLibrary.
  - unfold onClickCard. destruct (used i (ui w)); [done|].
    by rewrite config_addFromLibrary.
  - rewrite dom_insert_L. apply union_subseteq. split; [|done].
    unfold limit_keys. destruct k; simpl; set_solver +.
  - unfold spread_dict. rewrite dom_union_L. apply union_subseteq.
    split; [|done].
    unfold limit_keys.
    destruct name; simpl; rewrite !dom_insert_L, dom_empty_L; set_solver +.
  - unfold evaluate_call.
    by destruct (negb (isValidGraph seen_nodes seen_edges)).
  - destruct (pending w); [done|]. unfold evaluate_settle.
    by destruct (awaited o).
Qed.

Lemma limit_keys_reachable (w : Session) :
  reachable w -> dom (or_empty (hard_limits (config (ui w)))) ⊆ limit_keys.
Proof.
  induction 1 as [|w e Hw IH]; [|by apply limit_keys_dispatch].
  simpl. rewrite !dom_insert_L, dom_empty_L. unfold limit_keys. set_solver +.
Qed.

(** C6.  [applyPreset] replaces the config by its merge with the bundle:
    a scalar field takes the bundle's value when the bundle defines it
    and keeps the current one otherwise, and [weights] and [hard_limits]
    are merged key by key, the bundle's keys first and the other keys as
    they were.  Applying a second preset after a first is one merge with
    the bundle made of both, the second over the first; the bundles of
    the catalog define the same keys, so it is also the merge of the
    second alone.  After Strict and
    then Lenient every key of [hard_limits] that Lenient defines has
    Lenient's value; with no other key in the current config, as in
    every session on the board, [hard_limits] is Lenient's. *)
Theorem applyPreset_merge :
  (forall name s,
      config (applyPreset name s) = merge_preset (PRESETS name) (config s))
  /\ (forall p c,
         window (merge_preset p c)
         = match window p with Some v => Some v | None => window c end
         /\ require_same_side (merge_preset p c)
            = match require_same_side p with
              | Some v => Some v
              | None => require_same_side c
              end
         /\ unmatched_penalty (merge_preset p c)
            = match unmatched_penalty p with
              | Some v => Some v
              | None => unmatched_penalty c
              end)
  /\ (forall p c, exists w h,
         weights (merge_preset p c) = Some w
         /\ hard_limits (merge_preset p c) = Some h
         /\ (forall k, w !! k = match or_empty (weights p) !! k with
                                | Some v => Some v
                                | None => or_empty (weights c) !! k
                                end)
         /\ (forall k, h !! k = match or_empty (hard_limits p) !! k with
                                | Some v => Some v
                                | None => or_empty (hard_limits c) !! k
                                end))
  /\ (forall n1 n2 s,
         config (applyPreset n2 (applyPreset n1 s))
         = merge_preset (merge_preset (PRESETS n2) (PRESETS n1)) (config s)
         /\ config (applyPreset n2 (applyPreset n1 s))
            = config (applyPreset n2 s))
  /\ (forall s k,
         is_Some (or_empty (hard_limits (PRESETS Lenient)) !! k) ->
         or_empty (hard_limits (config (applyPreset Lenient
                                          (applyPreset Strict s)))) !! k
         = or_empty (hard_limits (PRESETS Lenient)) !! k)
  /\ (forall s,
         dom (or_empty (hard_limits (config s))) ⊆ limit_keys ->
         hard_limits (config (applyPreset Lenient (applyPreset Strict s)))
         = hard_limits (PRESETS Lenient))
  /\ (forall w,
         reachable w ->
         hard_limits (config (applyPreset Lenient (applyPreset Strict (ui w))))
         = hard_limits (PRESETS Lenient)).
Proof.
  split; [exact config_applyPreset|].
  split; [by intros p c|].
  split.
  { intros p c. eexists _, _. split; [reflexivity|]. split; [reflexivity|].
    split; intros k; apply spread_dict_lookup. }
  split.
  { intros n1 n2 s. rewrite !config_applyPreset.
    split; [apply merge_preset_seq|apply merge_preset_catalog]. }
  split.
  { intros s k [v Hv]. rewrite !config_applyPreset.
    change (spread_dict
              (or_empty (hard_limits (merge_preset (PRESETS Strict) (config s))))
              (or_empty (hard_limits (PRESETS Lenient))) !! k
            = or_empty (hard_limits (PRESETS Lenient)) !! k).
    rewrite spread_dict_lookup. by rewrite Hv. }
  assert (Hall : forall s,
             dom (or_empty (hard_limits (config s))) ⊆ limit_keys ->
             hard_limits (config (applyPreset Lenient (applyPreset Strict s)))
             = hard_limits (PRESETS Lenient)); cycle 1.
  { split; [exact Hall|]. intros w Hw. apply Hall.
    by apply limit_keys_reachable. }
  intros s Hdom. rewrite !config_applyPreset.
  change (Some (spread_dict
                  (spread_dict (or_empty (hard_limits (config s)))
                               (or_empty (hard_limits (PRESETS Strict))))
                  (or_empty (hard_limits (PRESETS Lenient))))
          = Some (or_empty (hard_limits (PRESETS Lenient)))).
  f_equal. apply lenient_over.
  unfold spread_dict. rewrite dom_union_L.
  apply union_subseteq. split; [|done].
  unfold limit_keys. simpl. rewrite !dom_insert_L, dom_empty_L. set_solver +.
Qed.

(** On the fresh board Strict and then Lenient leave Lenient's limits. *)
Lemma applyPreset_merge_witness :
  hard_limits (config (applyPreset Lenient (applyPreset Strict initial_state)))
  = hard_limits (PRESETS Lenient)
  /\ or_empty (hard_limits (config (applyPreset Lenient
                                      (applyPreset Strict initial_state))))
     !! "dx" = Some 7%Q.
Proof.
  destruct applyPreset_merge as (_ & _ & _ & _ & Hkey & Hall & Hreach). split.
  - apply Hall. simpl. rewrite !dom_insert_L, dom_empty_L.
    unfold limit_keys. set_solver +.
  - rewrite Hkey; [reflexivity|]. by eexists.
Defined.

End Presets.

(** ** The evaluation lifecycle *)

Section Evaluation.
Import Interactive.

Lemma evaluate_call_rejected (ns : list Node) (es : list Edge) (s : State) :
  isValidGraph ns es = false ->
  evaluate_call ns es s
  = (setStatus None (setWarning (Some remediation) s), None).
Proof. intros H. unfold evaluate_call. by rewrite H. Qed.

Lemma evaluate_call_accepted (ns : list Node) (es : list Edge) (s : State) :
  isValidGraph ns es = true ->
  evaluate_call ns es s
  = (setLoading true (setStatus (Some "Running…") (setWarning None s)),
     Some (evaluate_request (configRef s))).
Proof. intros H. unfold evaluate_call. by rewrite H. Qed.

(** C5.  When [isValidGraph] rejects, [evaluate] stores the remediation
    message, clears the status and hands nothing to [fetch]: the click
    leaves the list of requests and the number of pending ones as they
    were, and a page that was not busy is idle afterwards.  The empty
    graph is rejected. *)
Theorem evaluate_rejects_invalid_graph :
  (forall ns es s,
      isValidGraph ns es = false ->
      evaluate_call ns es s
      = (setStatus None (setWarning (Some remediation) s), None))
  /\ (forall ns es w,
         isValidGraph ns es = false ->
         let w' := dispatch (ClickRun ns es) w in
         sent w' = sent w
         /\ pending w' = pending w
         /\ warning (ui w') = Some remediation
         /\ status (ui w') = None
         /\ loading (ui w') = loading (ui w)
         /\ (loading (ui w) = false -> phase (ui w') = Idle))
  /\ isValidGraph [] [] = false
  /\ (let w' := dispatch (ClickRun [] []) initial_session in
      sent w' = [] /\ pending w' = 0
      /\ warning (ui w') = Some remediation /\ phase (ui w') = Idle).
Proof.
  split; [exact evaluate_call_rejected|]. split; [|by vm_compute].
  intros ns es w H w'. subst w'. simpl.
  rewrite (evaluate_call_rejected ns es (ui w) H). simpl.
  repeat (split; [done|]). unfold phase. simpl. by intros ->.
Qed.

(** A board with the evaluate node and no edge is rejected. *)
Lemma evaluate_rejects_invalid_graph_witness :
  let ns := [mkNode "evaluate" "evaluateNode" (default_position 0) no_data] in
  let w' := dispatch (ClickRun ns []) initial_session in
  sent w' = [] /\ warning (ui w') = Some remediation.
Proof.
  intros ns w'.
  destruct evaluate_rejects_invalid_graph as (_ & H & _).
  destruct (H ns [] initial_session eq_refl) as (Hs & _ & Hw & _).
  split; [exact Hs|exact Hw].
Defined.

Lemma message_or_spec (m fallback : string) :
  (m <> "" -> message_or m fallback = m)
  /\ (m = "" -> message_or m fallback = fallback).
Proof.
  unfold message_or. destruct (String.eqb_spec m ""); split; congruence.
Qed.

Lemma evaluate_settle_rejected {P : Type} (o : Outcome P) (m : string)
  (s : State) :
  awaited o = Rejected m ->
  evaluate_settle o s
  = setLoading false
      (setStatus (Some "Evaluation failed")
         (setWarning (Some (message_or m "Evaluation failed")) s)).
Proof. intros H. unfold evaluate_settle. by rewrite H. Qed.

Lemma run_settle_rejected (o : Outcome Workbench.Payload) (m : string)
  (s : Workbench.State) :
  awaited o = Rejected m ->
  Workbench.run_settle o s
  = Workbench.setLoading false
      (Workbench.setError (Some (message_or m "Evaluation failed")) s).
Proof. intros H. unfold Workbench.run_settle. by rewrite H. Qed.

(** C4.  A non-success status, a payload that does not parse and a
    failed transport all reach the [catch] clause, with the engine's
    body, the parser's message and the transport error's message.  In
    each case the attempt ends failed, on both surfaces: the stored
    message is that message, or [Evaluation failed] when it is empty,
    and [loading] is false.  A failure with body [bad weights] stores
    [bad weights]. *)
Theorem evaluation_failure :
  (forall (P : Type) (m : string) (payload : js_result P) body,
      awaited (engine_failure m payload) = Rejected m
      /\ awaited (unparseable body m : Outcome P) = Rejected m
      /\ awaited (transport_failure m : Outcome P) = Rejected m)
  /\ (forall (P : Type) (o : Outcome P) m s,
         awaited o = Rejected m ->
         let s' := evaluate_settle o s in
         phase s' = Failed
         /\ loading s' = false
         /\ status s' = Some "Evaluation failed"
         /\ warning s' = Some (if String.eqb m "" then "Evaluation failed" else m))
  /\ (forall o m s,
         awaited o = Rejected m ->
         let s' := Workbench.run_settle o s in
         form_phase s' = Failed
         /\ Workbench.loading s' = false
         /\ Workbench.error s'
            = Some (if String.eqb m "" then "Evaluation failed" else m))
  /\ (forall (P : Type) (payload : js_result P) s,
         let s' := evaluate_settle (engine_failure "bad weights" payload) s in
         phase s' = Failed /\ loading s' = false
         /\ warning s' = Some "bad weights")
  /\ (forall payload s,
         let s' := Workbench.run_settle (engine_failure "bad weights" payload) s in
         form_phase s' = Failed /\ Workbench.loading s' = false
         /\ Workbench.error s' = Some "bad weights").
Proof.
  split; [by intros P m payload body|]. split; [|split; [|split]].
  - intros P o m s H s'. subst s'.
    by rewrite (evaluate_settle_rejected o m s H).
  - intros o m s H s'. subst s'.
    by rewrite (run_settle_rejected o m s H).
  - by intros P payload s.
  - by intros payload s.
Qed.

(** A transport failure without a message, while a request is pending:
    the page ends failed with the generic message. *)
Lemma evaluation_failure_witness :
  let s := setLoading true initial_state in
  let s' := evaluate_settle (transport_failure "" : Outcome json) s in
  phase s' = Failed /\ loading s' = false
  /\ warning s' = Some "Evaluation failed"
  /\ Workbench.error
       (Workbench.run_settle (unparseable (Resolved "<html>") "Unexpected token <")
          (Workbench.setLoading true Workbench.initial_state))
     = Some "Unexpected token <".
Proof.
  intros s s'.
  destruct evaluation_failure as (_ & HI & HW & _).
  destruct (HI json (transport_failure "") "" s eq_refl) as (Hp & Hl & _ & Hm).
  destruct (HW (unparseable (Resolved "<html>") "Unexpected token <")
               "Unexpected token <"
               (Workbench.setLoading true Workbench.initial_state) eq_refl)
    as (_ & _ & He).
  split; [exact Hp|]. split; [exact Hl|]. split; [exact Hm|exact He].
Defined.

End Evaluation.

(** ** Requests *)

Section Requests.
Import Interactive.

Lemma or_else_is_Some {A : Type} (b a : option A) :
  is_Some a -> is_Some (or_else b a).
Proof. intros [v ->]. destruct b; by eexists. Qed.

Lemma populated_fields (c : Config) :
  populated c -> top_level_fields (evaluate_request c) = schema_fields.
Proof.
  destruct c as [w r ws u h]. unfold populated; simpl.
  intros ([? ->] & [? ->] & [? ->] & [? ->] & [? ->]).
  unfold top_level_fields, schema_fields. simpl.
  rewrite !dom_insert_L, dom_empty_L. set_solver +.
Qed.

Lemma form_populated_fields (c : Workbench.Config) :
  form_populated c
  -> top_level_fields (Workbench.evaluate_request c) = form_fields.
Proof.
  destruct c as [w r ws ps u h]. unfold form_populated; simpl.
  intros ([? ->] & [? ->] & [? ->] & [? ->] & [? ->] & [? ->]).
  unfold top_level_fields, form_fields. simpl.
  rewrite !dom_insert_L, dom_empty_L. set_solver +.
Qed.

Lemma populated_merge_preset (p c : Config) :
  populated c -> populated (merge_preset p c).
Proof.
  intros (Hw & Hr & _ & Hu & _). unfold populated; simpl.
  repeat split; try (by apply or_else_is_Some); by eexists.
Qed.

(** The config after an event is populated if it was before. *)
Lemma populated_dispatch (e : Event) (w : Session) :
  populated (config (ui w)) -> populated (config (ui (dispatch e w))).
Proof.
  intros Hc. pose proof Hc as (Hw & Hr & Hws & Hu & Hh).
  destruct e; simpl; try done.
  - unfold onDrop. destruct (String.eqb i ""); [done|].
    by rewrite config_addFromLibrary.
  - unfold onClickCard. destruct (used i (ui w)); [done|].
    by rewrite config_addFromLibrary.
  - by apply populated_merge_preset.
  - unfold evaluate_call.
    by destruct (negb (isValidGraph seen_nodes seen_edges)).
  - destruct (pending w); [done|]. unfold evaluate_settle.
    by destruct (awaited o).
Qed.

(** At every event [configRef.current] is the current config. *)
Lemma configRef_dispatch (e : Event) (w : Session) :
  configRef (ui w) = config (ui w) ->
  configRef (ui (dispatch e w)) = config (ui (dispatch e w)).
Proof.
  intros Hc. destruct e; simpl; try done.
  - unfold evaluate_call.
    by destruct (negb (isValidGraph seen_nodes seen_edges)).
  - by destruct (pending w).
Qed.

Lemma sent_dispatch (e : Event) (w : Session) :
  sent (dispatch e w) = sent w
  \/ exists ns es,
       e = ClickRun ns es /\ isValidGraph ns es = true
       /\ sent (dispatch e w)
          = (sent w ++ [evaluate_request (configRef (ui w))])%list.
Proof.
  destruct e; simpl; try (by left).
  - destruct (isValidGraph seen_nodes seen_edges) eqn:V.
    + right. exists seen_nodes, seen_edges.
      by rewrite (evaluate_call_accepted _ _ _ V).
    + left. by rewrite (evaluate_call_rejected _ _ _ V).
  - left. by destruct (pending w).
Qed.

Lemma sent_prefix_dispatch (e : Event) (w : Session) :
  sent w `prefix_of` sent (dispatch e w).
Proof.
  destruct (sent_dispatch e w) as [-> | (ns & es & _ & _ & ->)]; [done|].
  by apply prefix_app_r.
Qed.

Lemma sent_prefix_run_events (evs : list Event) (w : Session) :
  sent w `prefix_of` sent (run_events evs w).
Proof.
  revert w. induction evs as [|e evs IH]; intros w; [done|].
  simpl. etrans; [apply (sent_prefix_dispatch e)|apply IH].
Qed.

Lemma reachable_run_events (evs : list Event) (w : Session) :
  reachable w -> reachable (run_events evs w).
Proof.
  revert w. induction evs as [|e evs IH]; intros w Hw; [done|].
  simpl. apply IH. by constructor.
Qed.

(** What holds of every session on the board. *)
Lemma reachable_invariant (w : Session) :
  reachable w ->
  populated (config (ui w))
  /\ configRef (ui w) = config (ui w)
  /\ Forall (fun r => exists c, populated c /\ r = evaluate_request c) (sent w).
Proof.
  induction 1 as [|w e Hw (Hp & Hc & Hs)].
  - split; [|split; [done|by constructor]].
    unfold populated; simpl. repeat split; by eexists.
  - split; [by apply populated_dispatch|].
    split; [by apply configRef_dispatch|].
    destruct (sent_dispatch e w) as [-> | (ns & es & _ & _ & ->)]; [done|].
    apply Forall_app. split; [done|].
    constructor; [|by constructor].
    exists (configRef (ui w)). by rewrite Hc.
Qed.

Lemma form_populated_dispatch (e : Workbench.Event) (w : Workbench.Session) :
  form_populated (Workbench.config (Workbench.ui w)) ->
  form_populated (Workbench.config (Workbench.ui (Workbench.dispatch e w))).
Proof.
  intros Hc. pose proof Hc as (Hw & Hr & Hws & Hps & Hu & Hh).
  destruct e; simpl; try done.
  - unfold form_populated; simpl. repeat split; by apply or_else_is_Some.
  - destruct key; unfold form_populated; simpl;
      repeat split; try done; by eexists.
  - unfold Workbench.onClickEvaluate.
    by destruct (Workbench.loading (Workbench.ui w)).
  - destruct (Workbench.pending w); [done|]. unfold Workbench.run_settle.
    by destruct (awaited o).
Qed.

Lemma form_sent_dispatch (e : Workbench.Event) (w : Workbench.Session) :
  Workbench.sent (Workbench.dispatch e w) = Workbench.sent w
  \/ (e = Workbench.ClickEvaluate
      /\ Workbench.loading (Workbench.ui w) = false
      /\ Workbench.sent (Workbench.dispatch e w)
         = (Workbench.sent w
            ++ [Workbench.evaluate_request
                  (Workbench.config (Workbench.ui w))])%list).
Proof.
  destruct e; simpl; try (by left).
  - unfold Workbench.onClickEvaluate.
    destruct (Workbench.loading (Workbench.ui w)) eqn:L; [by left|by right].
  - left. by destruct (Workbench.pending w).
Qed.

Lemma form_reachable_invariant (w : Workbench.Session) :
  Workbench.reachable w ->
  form_populated (Workbench.config (Workbench.ui w))
  /\ Forall (fun r => exists c, form_populated c
                                /\ r = Workbench.evaluate_request c)
            (Workbench.sent w).
Proof.
  induction 1 as [|w e Hw (Hp & Hs)].
  - split; [|by constructor].
    unfold form_populated; simpl. repeat split; by eexists.
  - split; [by apply form_populated_dispatch|].
    destruct (form_sent_dispatch e w) as [-> | (_ & _ & ->)]; [done|].
    apply Forall_app. split; [done|].
    constructor; [|by constructor]. by eexists.
Qed.

(** C3, as the code has it.  On the board every request is the
    serialized config of the moment of the click and has exactly the
    five fields of the schema.  On the form every request is the
    serialized config of the moment of the click as well, and has six
    fields: the five of the schema and [penalties]. *)
Theorem request_body_is_config :
  (forall w, reachable w ->
      (forall r, r ∈ sent w ->
                 (exists c, r = evaluate_request c)
                 /\ top_level_fields r = schema_fields)
      /\ (forall ns es,
             isValidGraph ns es = true ->
             sent (dispatch (ClickRun ns es) w)
             = (sent w ++ [evaluate_request (config (ui w))])%list))
  /\ (forall w, Workbench.reachable w ->
         (forall r, r ∈ Workbench.sent w ->
                    (exists c, r = Workbench.evaluate_request c)
                    /\ top_level_fields r = form_fields)
         /\ (Workbench.loading (Workbench.ui w) = false ->
             Workbench.sent (Workbench.dispatch Workbench.ClickEvaluate w)
             = (Workbench.sent w
                ++ [Workbench.evaluate_request
                      (Workbench.config (Workbench.ui w))])%list)).
Proof.
  split.
  - intros w Hw. destruct (reachable_invariant w Hw) as (_ & Hc & Hs). split.
    + intros r Hr. rewrite Forall_forall in Hs.
      destruct (Hs r Hr) as (c & Hp & ->).
      split; [by exists c|by apply populated_fields].
    + intros ns es V. simpl.
      by rewrite (evaluate_call_accepted _ _ _ V), Hc.
  - intros w Hw. destruct (form_reachable_invariant w Hw) as (_ & Hs). split.
    + intros r Hr. rewrite Forall_forall in Hs.
      destruct (Hs r Hr) as (c & Hp & ->).
      split; [by exists c|by apply form_populated_fields].
    + intros L. simpl. unfold Workbench.onClickEvaluate. by rewrite L.
Qed.

(** The first evaluation on each surface, with the default config. *)
Lemma request_body_is_config_witness :
  sent (dispatch (ClickRun scenario_nodes scenario_edges) initial_session)
  = [evaluate_request initial_config]
  /\ Workbench.sent
       (Workbench.dispatch Workbench.ClickEvaluate Workbench.initial_session)
     = [Workbench.evaluate_request Workbench.initial_config].
Proof.
  destruct request_body_is_config as (HI & HW). split.
  - destruct (HI initial_session reach_initial) as (_ & H).
    exact (H scenario_nodes scenario_edges eq_refl).
  - destruct (HW Workbench.initial_session Workbench.reach_initial) as (_ & H).
    exact (H eq_refl).
Defined.

(** C3 as the claim states it fails on the form: the request of the
    first evaluation has the field [penalties], six fields in all. *)
Lemma form_request_has_penalties :
  let w := Workbench.dispatch Workbench.ClickEvaluate Workbench.initial_session in
  exists r,
    Workbench.sent w = [r]
    /\ r = Workbench.evaluate_request Workbench.initial_config
    /\ "penalties" ∈ top_level_fields r
    /\ size (top_level_fields r) = 6
    /\ top_level_fields r <> schema_fields.
Proof.
  intros w. exists (Workbench.evaluate_request Workbench.initial_config).
  split; [reflexivity|]. split; [reflexivity|].
  assert (F : top_level_fields
                (Workbench.evaluate_request Workbench.initial_config)
              = form_fields).
  { unfold top_level_fields. simpl. rewrite !dom_insert_L, dom_empty_L.
    unfold form_fields. set_solver +. }
  rewrite F. unfold form_fields, schema_fields.
  split; [set_solver +|]. split; [by vm_compute|].
  intros E.
  assert (H : "penalties" ∈ ({["window"; "require_same_side"; "weights";
                               "unmatched_penalty"; "hard_limits"]} : gset string)).
  { rewrite <- E. set_solver +. }
  set_solver.
Qed.

Lemma lookup_body (c : Config) : body_holds (evaluate_request c) c.
Proof.
  destruct c as [[w|] [r|] [ws|] [u|] [h|]]; repeat split; reflexivity.
Qed.

(** C9.  A request, once handed to [fetch], is not touched by any later
    event.  The request of an evaluation carries the config of the
    moment of the click, every field under its key; whatever events
    follow while it is pending, it stays that request; and the next
    evaluation sends the config those events have produced.  This is
    [evaluate] whenever its validator accepts.  On the form, whose
    button does send: the window is set to 7 while the first request is
    pending, that request carries 5 and the one after it 7. *)
Theorem request_is_snapshot :
  (forall e w, sent w `prefix_of` sent (dispatch e w))
  /\ (forall w ns es evs,
         reachable w -> isValidGraph ns es = true ->
         let w1 := dispatch (ClickRun ns es) w in
         let w2 := run_events evs w1 in
         sent w1 = (sent w ++ [evaluate_request (config (ui w))])%list
         /\ sent w2 !! length (sent w) = Some (evaluate_request (config (ui w)))
         /\ (forall ns' es',
                isValidGraph ns' es' = true ->
                sent (dispatch (ClickRun ns' es') w2)
                = (sent w2 ++ [evaluate_request (config (ui w2))])%list)
         /\ (exists r,
                sent w2 !! length (sent w) = Some r
                /\ body_holds r (config (ui w)))
         /\ (forall ns' es',
                isValidGraph ns' es' = true ->
                exists r',
                  sent (dispatch (ClickRun ns' es') w2) !! length (sent w2)
                  = Some r'
                  /\ body_holds r' (config (ui w2))))
  /\ (let w1 := Workbench.dispatch Workbench.ClickEvaluate
                  Workbench.initial_session in
      let w2 := Workbench.dispatch
                  (Workbench.UpdateConfig
                     (Workbench.mkConfig (Some 7%Q) None None None None None))
                  w1 in
      let w3 := Workbench.run_events
                  [Workbench.Settle (Rejected "down"); Workbench.ClickEvaluate]
                  w2 in
      exists r r',
        Workbench.sent w2 = [r] /\ Workbench.pending w2 = 1
        /\ json_fields (body r) !! "window" = Some (JNum 5%Q)
        /\ Workbench.sent w3 = [r; r']
        /\ json_fields (body r') !! "window" = Some (JNum 7%Q)).
Proof.
  split; [exact sent_prefix_dispatch|].
  split; [|by eexists _, _; vm_compute].
  intros w ns es evs Hw V w1 w2.
  assert (H1 : sent w1 = (sent w ++ [evaluate_request (config (ui w))])%list).
  { destruct (reachable_invariant w Hw) as (_ & Hc & _).
    subst w1. simpl. by rewrite (evaluate_call_accepted _ _ _ V), Hc. }
  assert (H2 : sent w2 !! length (sent w)
               = Some (evaluate_request (config (ui w)))).
  { destruct (sent_prefix_run_events evs w1) as [k Hk].
    fold w2 in Hk. rewrite Hk, H1, <- app_assoc. simpl.
    by apply list_lookup_middle. }
  assert (H3 : forall ns' es',
             isValidGraph ns' es' = true ->
             sent (dispatch (ClickRun ns' es') w2)
             = (sent w2 ++ [evaluate_request (config (ui w2))])%list).
  { intros ns' es' V'.
    assert (Hw2 : reachable w2).
    { apply reachable_run_events. by constructor. }
    destruct (reachable_invariant w2 Hw2) as (_ & Hc & _).
    simpl. by rewrite (evaluate_call_accepted _ _ _ V'), Hc. }
  split; [exact H1|]. split; [exact H2|]. split; [exact H3|]. split.
  - exists (evaluate_request (config (ui w))). split; [exact H2|].
    apply lookup_body.
  - intros ns' es' V'. exists (evaluate_request (config (ui w2))).
    split; [|apply lookup_body].
    rewrite (H3 ns' es' V'). by apply list_lookup_middle.
Qed.

(** The board is filled and connected and [evaluate] is called on the
    board as it stands; the window is moved to 9 and the penalty to 30
    while the request is pending.  The pending request still carries
    window 5 and penalty 20, and the next one carries 9 and 30. *)
Lemma request_is_snapshot_witness :
  let w0 := run_events
              [ClickCard "input"; ClickCard "gate"; ClickCard "evaluate";
               Connect append_edge (mkEdge "input" "gate" None None);
               Connect append_edge (mkEdge "gate" "evaluate" None None)]
              initial_session in
  let ns := nodes (ui w0) in
  let es := edges (ui w0) in
  let w1 := dispatch (ClickRun ns es) w0 in
  let w2 := run_events [ChangeWindow 9%Q; ChangePenalty 30%Q] w1 in
  isValidGraph ns es = true
  /\ (exists r,
         sent w2 = [r]
         /\ json_fields (body r) !! "window" = Some (JNum 5%Q)
         /\ json_fields (body r) !! "unmatched_penalty" = Some (JNum 20%Q))
  /\ (exists r r',
         sent (dispatch (ClickRun ns es) w2) = [r; r']
         /\ json_fields (body r') !! "window" = Some (JNum 9%Q)
         /\ json_fields (body r') !! "unmatched_penalty" = Some (JNum 30%Q)).
Proof.
  intros w0 ns es w1 w2.
  assert (Hw0 : reachable w0) by (apply reachable_run_events; constructor).
  assert (V : isValidGraph ns es = true) by reflexivity.
  destruct request_is_snapshot as (_ & H & _).
  destruct (H w0 ns es [ChangeWindow 9%Q; ChangePenalty 30%Q] Hw0 V)
    as (_ & _ & _ & (r & Hr & Hb) & Hnext).
  destruct (Hnext ns es V) as (r' & Hr' & Hb').
  split; [exact V|]. split.
  - exists r. destruct Hb as (Bw & _ & _ & Bu & _).
    change (sent w2 !! 0 = Some r) in Hr.
    assert (E : sent w2 = [r]).
    { change (sent w2) with [evaluate_request (config (ui w0))] in *.
      by injection Hr as <-. }
    split; [exact E|]. split; [exact Bw|exact Bu].
  - exists r, r'. destruct Hb' as (Bw & _ & _ & Bu & _).
    change (sent w2 !! 0 = Some r) in Hr.
    change (sent (dispatch (ClickRun ns es) w2) !! 1 = Some r') in Hr'.
    assert (E : sent (dispatch (ClickRun ns es) w2) = [r; r']).
    { change (sent w2) with [evaluate_request (config (ui w0))] in Hr.
      change (sent (dispatch (ClickRun ns es) w2))
        with [evaluate_request (config (ui w0));
              evaluate_request (config (ui w2))] in *.
      injection Hr as <-. by injection Hr' as <-. }
    split; [exact E|]. split; [exact Bw|exact Bu].
Defined.

Lemma loading_addFromLibrary (i : string) (pos : option XY) (s : State) :
  loading (addFromLibrary i pos s) = loading s.
Proof.
  unfold addFromLibrary. destruct (List.find _ _) as [item|]; [|done].
  by destruct (unique item && used (item_id item) s).
Qed.

(** An event that is not a click on Run, on a page with nothing
    pending, sends nothing and leaves [loading] as it is. *)
Lemma dispatch_without_run (e : Event) (w : Session) :
  (forall ns es, e <> ClickRun ns es) -> pending w = 0 ->
  sent (dispatch e w) = sent w /\ pending (dispatch e w) = 0
  /\ loading (ui (dispatch e w)) = loading (ui w).
Proof.
  intros Hne Hp.
  destruct e as [i xy | i | addEdge params | apply | apply | v | v | k v | v
                | name | seen_nodes seen_edges | o]; simpl; try done.
  - split; [done|]. split; [done|]. unfold onDrop.
    destruct (String.eqb i ""); [done|]. apply loading_addFromLibrary.
  - split; [done|]. split; [done|]. unfold onClickCard.
    destruct (used i (ui w)); [done|]. apply loading_addFromLibrary.
  - by destruct (Hne seen_nodes seen_edges).
  - by rewrite Hp.
Qed.

Lemma places_evaluate_unused (e : Event) (s : State) :
  places_evaluate e s = true -> used "evaluate" s = false.
Proof.
  destruct e; simpl; try discriminate;
    intros H; apply andb_true_iff in H as [_ H]; by apply negb_true_iff in H.
Qed.

(** What holds of the page whatever is done on it: nothing was sent,
    nothing is pending, and the graph the Run button's [evaluate] holds
    is rejected. *)
Lemma page_never_sends (acts : list PageEvent) (p : Page) :
  (sent (session p) = [] /\ pending (session p) = 0
   /\ loading (ui (session p)) = false
   /\ (forall ns es, onEvaluate p = Some (ns, es) ->
                     isValidGraph ns es = false)
   /\ reachable (session p)) ->
  let p' := page_run acts p in
  sent (session p') = [] /\ pending (session p') = 0
  /\ loading (ui (session p')) = false
  /\ (forall ns es, onEvaluate p' = Some (ns, es) ->
                    isValidGraph ns es = false)
  /\ reachable (session p').
Proof.
  revert p. induction acts as [|a acts IH]; intros p Hp; [done|].
  simpl. apply IH. destruct Hp as (Hs & Hn & Hl & Hg & Hr).
  destruct a as [e|].
  - assert (Hother : (forall ns es, e <> ClickRun ns es) ->
                     page_dispatch (Handle e) p
                     = {| session := dispatch e (session p);
                          onEvaluate :=
                            if places_evaluate e (ui (session p))
                            then Some (nodes (ui (session p)),
                                       edges (ui (session p)))
                            else onEvaluate p |}).
    { intros Hne. destruct e; try done. by destruct (Hne seen_nodes seen_edges). }
    assert (Hcase : (exists ns es, e = ClickRun ns es)
                    \/ (forall ns es, e <> ClickRun ns es)).
    { destruct e; try (right; intros; discriminate). left. eauto. }
    destruct Hcase as [(ns & es & ->) | Hne']; [done|].
    rewrite (Hother Hne'). simpl.
    destruct (dispatch_without_run e (session p) Hne' Hn) as (Es & En & El).
    split; [congruence|]. split; [done|]. split; [congruence|].
    split; [|by constructor].
    intros ns es. destruct (places_evaluate e (ui (session p))) eqn:Hpl.
    + intros [= <- <-]. apply isValidGraph_before_placement.
      by apply (places_evaluate_unused e).
    + apply Hg.
  - assert (Hsame : sent (session p) = [] /\ pending (session p) = 0
                     /\ loading (ui (session p)) = false
                     /\ (forall ns es, onEvaluate p = Some (ns, es) ->
                                       isValidGraph ns es = false)
                     /\ reachable (session p)) by done.
    unfold page_dispatch.
    destruct (onEvaluate p) as [[ns es]|] eqn:Hheld;
      [|rewrite Hheld; exact Hsame].
    destruct (run_button (ui (session p))); [|rewrite Hheld; exact Hsame].
    simpl. rewrite (evaluate_call_rejected ns es _ (Hg ns es eq_refl)). simpl.
    split; [done|]. split; [done|]. split; [done|].
    split; [exact Hg|].
    pose proof (reach_dispatch (session p) (ClickRun ns es) Hr) as Hr'.
    simpl in Hr'.
    by rewrite (evaluate_call_rejected ns es _ (Hg ns es eq_refl)) in Hr'.
Qed.

(** C2 on the code.  On the page nothing is ever sent: whatever is
    placed, connected and clicked, the [evaluate] of the Run button
    validates the board on which the Evaluate stage was placed, which
    has no evaluate node, so after two clicks on Run on a valid board no
    request has reached the engine, where the claim has exactly one.
    Besides,
    [evaluate] does not read [loading]: called while a request is
    pending it hands [fetch] what it hands it when the page is idle.  On
    the form the button is disabled while [loading], and two clicks send
    one request. *)
Theorem run_button_not_gated :
  (forall acts,
      let p := page_run acts initial_page in
      sent (session p) = [] /\ pending (session p) = 0
      /\ loading (ui (session p)) = false
      /\ (forall ns es, onEvaluate p = Some (ns, es) ->
                        isValidGraph ns es = false)
      /\ reachable (session p))
  /\ (let p := page_run two_run_clicks initial_page in
      let s := ui (session p) in
      isValidGraph (nodes s) (edges s) = true
      /\ run_button s = true
      /\ onEvaluate p
         = Some ([mkNode "input" "inputNode" (default_position 0) no_data;
                  mkNode "gate" "gateNode" (default_position 1)
                    (mkData (Some 5%Q) (Some false) None None None None)],
                 [mkEdge "input" "gate" (Some "smoothstep") (Some true)])
      /\ sent (session p) = []
      /\ warning s = Some remediation
      /\ phase s = Idle)
  /\ (forall ns es s,
         snd (evaluate_call ns es (setLoading true s))
         = snd (evaluate_call ns es s))
  /\ (forall s,
         Workbench.onClickEvaluate (Workbench.setLoading true s)
         = (Workbench.setLoading true s, None))
  /\ (let w1 := Workbench.dispatch Workbench.ClickEvaluate
                  Workbench.initial_session in
      let w2 := Workbench.dispatch Workbench.ClickEvaluate w1 in
      form_phase (Workbench.ui w1) = Submitting
      /\ Workbench.sent w2
         = [Workbench.evaluate_request Workbench.initial_config]
      /\ Workbench.pending w2 = 1).
Proof.
  split; [|split; [|split; [|split]]].
  - intros acts. apply page_never_sends.
    split; [done|]. split; [done|]. split; [done|].
    split; [discriminate|constructor].
  - by vm_compute.
  - intros ns es s. unfold evaluate_call.
    by destruct (negb (isValidGraph ns es)).
  - by intros s.
  - by vm_compute.
Qed.

End Requests.

(** ** The board across a session *)

Section BoardInvariants.
Import Interactive.

Lemma map_fmap {A B : Type} (f : A -> B) (l : list A) : map f l = f <$> l.
Proof. induction l as [|x l IH]; [done|]. simpl. by rewrite IH. Qed.

Lemma run_events_invariant (Inv : Session -> Prop) (P : Event -> Prop) :
  (forall e w, P e -> Inv w -> Inv (dispatch e w)) ->
  forall evs w, Forall P evs -> Inv w -> Inv (run_events evs w).
Proof.
  intros Hstep evs. induction evs as [|e evs IH]; intros w Hevs Hw; [done|].
  apply Forall_cons in Hevs as [He Hevs]. simpl. apply IH; [done|].
  by apply Hstep.
Qed.

Lemma tame_without_node (i : string) : tame (without_node i).
Proof.
  intros nds. unfold without_node.
  induction nds as [|n nds IH]; [done|]. simpl.
  destruct (negb (String.eqb (id n) i)); simpl; by constructor.
Qed.

(** A handler that rewrites the data of nodes keeps ids and types. *)
Lemma board_ok_transfer (s s' : State) :
  id <$> nodes s' `sublist_of` id <$> nodes s ->
  (forall n', n' ∈ nodes s' ->
              exists n, n ∈ nodes s /\ id n = id n' /\ type n = type n') ->
  usedIds s' = usedIds s ->
  board_ok s -> board_ok s'.
Proof.
  intros Hsub Hin Hu (Hnd & Hall & Hids). split; [|split].
  - by eapply sublist_NoDup.
  - intros n' Hn'. destruct (Hin n' Hn') as (n & Hn & <- & <-).
    rewrite Hu. by apply Hall.
  - by rewrite Hu.
Qed.

Lemma map_keeps (g : Node -> Node) (nds : list Node) :
  (forall n, id (g n) = id n /\ type (g n) = type n) ->
  id <$> map g nds = id <$> nds
  /\ forall n', n' ∈ map g nds ->
                exists n, n ∈ nds /\ id n = id n' /\ type n = type n'.
Proof.
  intros Hg. split.
  - induction nds as [|n nds IH]; [done|].
    cbn. f_equal; [exact (proj1 (Hg n))|exact IH].
  - intros n' Hn'. rewrite map_fmap in Hn'.
    apply list_elem_of_fmap in Hn' as (n & -> & Hn).
    exists n. destruct (Hg n) as [-> ->]. done.
Qed.

Lemma board_ok_map (g : Node -> Node) (s : State) :
  (forall n, id (g n) = id n /\ type (g n) = type n) ->
  board_ok s -> board_ok (setNodes (map g) s).
Proof.
  intros Hg. destruct (map_keeps g (nodes s) Hg) as [Hids Hin].
  apply board_ok_transfer; [|exact Hin|done].
  change (id <$> map g (nodes s) `sublist_of` id <$> nodes s).
  by rewrite Hids.
Qed.

Lemma update_data_keeps (i : string) (f : NodeData -> NodeData) (n : Node) :
  id (if String.eqb (id n) i then with_data (f (data n)) n else n) = id n
  /\ type (if String.eqb (id n) i then with_data (f (data n)) n else n)
     = type n.
Proof. by destruct (String.eqb (id n) i). Qed.

Lemma board_ok_update_data (i : string) (f : NodeData -> NodeData) (s : State) :
  board_ok s -> board_ok (setNodes (update_data_of i f) s).
Proof. apply board_ok_map. intros n. apply update_data_keeps. Qed.

Lemma preset_node_keeps (p : Config) (n : Node) :
  id (preset_node p n) = id n /\ type (preset_node p n) = type n.
Proof.
  unfold preset_node.
  destruct (String.eqb (id n) "gate"); [done|].
  destruct (String.eqb (id n) "limits"); [done|].
  by destruct (String.eqb (id n) "unmatched").
Qed.

(** What the library holds under an id. *)
Lemma library_find_stage (i : string) (c : Config) (item : LibraryItem) :
  List.find (fun it => String.eqb (item_id it) i) (library c) = Some item ->
  item_id item = i /\ item_id item ∈ stage_ids
  /\ stage_type (item_id item) = Some (item_type item)
  /\ unique item = true.
Proof.
  unfold library. cbn [List.find item_id].
  repeat match goal with
         | |- context [String.eqb ?a i] =>
             destruct (String.eqb_spec a i) as [E | _];
             [intros F; injection F as <-; subst i;
              split; [done|]; split; [by vm_compute|];
              split; [by vm_compute|done]|]
         end.
  discriminate.
Qed.

Lemma board_ok_addFromLibrary (i : string) (pos : option XY) (s : State) :
  board_ok s -> board_ok (addFromLibrary i pos s).
Proof.
  intros Hok. pose proof Hok as (Hnd & Hall & Hids).
  unfold addFromLibrary.
  destruct (List.find _ _) as [item|] eqn:F; [|done].
  destruct (library_find_stage i (config s) item F) as (Ei & Hst & Hty & Hun).
  rewrite Hun. simpl.
  destruct (used (item_id item) s) eqn:Hu; [done|].
  unfold used in Hu. apply orb_false_iff in Hu as [_ Hu].
  split; [|split]; simpl.
  - rewrite fmap_app. apply NoDup_app. split; [done|]. split.
    + intros x Hx Hx'. apply list_elem_of_singleton in Hx'. subst x.
      apply list_elem_of_fmap in Hx as (n & En & Hn).
      assert (existsb (fun n => String.eqb (id n) (item_id item)) (nodes s)
              = true); [|congruence].
      apply some_node_iff. by exists n.
    + apply NoDup_singleton.
  - intros n Hn. apply elem_of_app in Hn as [Hn | Hn].
    + destruct (Hall n Hn) as [Hin Ht].
      split; [by apply elem_of_union_r|done].
    + apply list_elem_of_singleton in Hn. subst n. simpl.
      split; [by apply elem_of_union_l, elem_of_singleton|done].
  - apply union_subseteq. split; [by apply singleton_subseteq_l|done].
Qed.

Lemma board_ok_dispatch (e : Event) (w : Session) :
  tame_event e -> board_ok (ui w) -> board_ok (ui (dispatch e w)).
Proof.
  intros He Hok.
  destruct e as [i xy | i | addEdge params | apply | apply | v | v | k v | v
                | name | seen_nodes seen_edges | o]; simpl.
  - unfold onDrop. destruct (String.eqb i ""); [done|].
    by apply (board_ok_addFromLibrary i (Some xy)) in Hok.
  - unfold onClickCard. destruct (used i (ui w)); [done|].
    by apply (board_ok_addFromLibrary i None) in Hok.
  - done.
  - revert Hok. apply board_ok_transfer; simpl; [|  |done].
    + specialize (He (nodes (ui w))).
      assert (Hfst : forall l : list Node,
                 id <$> l = (fun k => fst (fst k)) <$> (node_key <$> l)).
      { intros l. rewrite <- list_fmap_compose. done. }
      rewrite !Hfst. by apply fmap_sublist.
    + intros n' Hn'. specialize (He (nodes (ui w))).
      apply sublist_subseteq in He.
      assert (Hk : node_key n' ∈ node_key <$> nodes (ui w)).
      { apply He. by apply list_elem_of_fmap_2. }
      apply list_elem_of_fmap in Hk as (n & Ek & Hn).
      exists n. unfold node_key in Ek. by injection Ek as -> -> _.
  - done.
  - apply board_ok_update_data. exact Hok.
  - apply board_ok_update_data. exact Hok.
  - apply board_ok_update_data. exact Hok.
  - apply board_ok_update_data. exact Hok.
  - apply board_ok_map; [apply preset_node_keeps|exact Hok].
  - unfold evaluate_call.
    by destruct (negb (isValidGraph seen_nodes seen_edges)).
  - destruct (pending w); [done|]. unfold evaluate_settle.
    by destruct (awaited o).
Qed.

Lemma board_ok_initial : board_ok initial_state.
Proof.
  split; [apply NoDup_nil_2|]. split; [|done].
  intros n Hn. by apply elem_of_nil in Hn.
Qed.

Lemma board_ok_length (s : State) : board_ok s -> length (nodes s) <= 5.
Proof.
  intros (Hnd & Hall & Hids).
  rewrite <- (length_fmap id), <- (size_list_to_set (C := gset string)) by done.
  change 5 with (size stage_ids). apply subseteq_size.
  intros i Hi. apply elem_of_list_to_set, list_elem_of_fmap in Hi as (n & -> & Hn).
  apply Hids. by apply Hall.
Qed.

(** X3.  As long as the node changes of the board library only move,
    select or delete nodes, every event keeps the board in order: no two
    nodes have the same id, every node on the board has its id in
    [usedIds] and the node type the library gives that id, only library
    stages are in [usedIds], the board has at most five nodes, and a
    stage is refused exactly when its id is in [usedIds]. *)
Theorem board_holds_each_stage_once :
  (forall e w,
      tame_event e -> board_ok (ui w) -> board_ok (ui (dispatch e w)))
  /\ (forall evs,
         Forall tame_event evs ->
         let s := ui (run_events evs initial_session) in
         NoDup (id <$> nodes s)
         /\ (forall n, n ∈ nodes s ->
                       id n ∈ usedIds s /\ stage_type (id n) = Some (type n))
         /\ usedIds s ⊆ stage_ids
         /\ length (nodes s) <= 5
         /\ (forall i, used i s = true <-> i ∈ usedIds s)).
Proof.
  split; [exact board_ok_dispatch|].
  intros evs Hevs s.
  assert (Hok : board_ok s).
  { apply (run_events_invariant (fun w => board_ok (ui w)) tame_event);
      [exact board_ok_dispatch|done|exact board_ok_initial]. }
  pose proof (board_ok_length s Hok) as Hlen.
  destruct Hok as (Hnd & Hall & Hids).
  split; [done|]. split; [done|]. split; [done|]. split; [done|].
  intros i. rewrite used_iff. split; [|by left].
  intros [Hi | (n & Hn & <-)]; [done|]. by apply Hall.
Qed.

(** The gate is placed twice by click and once by drop, deleted, and the
    input is placed: the board holds the input alone. *)
Lemma board_holds_each_stage_once_witness :
  let evs := [ClickCard "gate"; ClickCard "gate"; Drop "gate" (mkXY 0%Q 0%Q);
              NodesChange (without_node "gate"); ClickCard "input"] in
  let s := ui (run_events evs initial_session) in
  id <$> nodes s = ["input"] /\ NoDup (id <$> nodes s)
  /\ length (nodes s) <= 5.
Proof.
  intros evs s.
  assert (Hevs : Forall tame_event evs).
  { repeat constructor. apply tame_without_node. }
  destruct (proj2 board_holds_each_stage_once evs Hevs)
    as (Hnd & _ & _ & Hlen & _).
  split; [reflexivity|]. split; [exact Hnd|exact Hlen].
Defined.

End BoardInvariants.

(** ** Node data and config *)

Section NodeData.
Import Interactive.

Lemma limit_of_merge_preset (p c : Config) (k : string) :
  limit_of (merge_preset p c) k = or_else (limit_of p k) (limit_of c k).
Proof.
  unfold limit_of. simpl. rewrite spread_dict_lookup. unfold or_else.
  destruct (hard_limits p) as [hp|], (hard_limits c) as [hc|]; simpl;
    rewrite ?lookup_empty; done.
Qed.

Lemma has_limits_dispatch (e : Event) (w : Session) :
  has_limits (config (ui w)) -> has_limits (config (ui (dispatch e w))).
Proof.
  intros Hl. pose proof Hl as (Hx & Hc & Ht).
  destruct e as [i xy | i | addEdge params | apply | apply | v | v | k v | v
                | name | seen_nodes seen_edges | o]; simpl; try done.
  - unfold onDrop. destruct (String.eqb i ""); [done|].
    by rewrite config_addFromLibrary.
  - unfold onClickCard. destruct (used i (ui w)); [done|].
    by rewrite config_addFromLibrary.
  - unfold has_limits, limit_of in *. simpl.
    destruct (hard_limits (config (ui w))) as [h|]; simpl in *;
      [|by destruct Hx].
    repeat split; destruct k; simpl;
      rewrite ?lookup_insert_eq, ?lookup_insert_ne by done; by eauto.
  - unfold has_limits. rewrite !limit_of_merge_preset.
    repeat split; by apply or_else_is_Some.
  - unfold evaluate_call.
    by destruct (negb (isValidGraph seen_nodes seen_edges)).
  - destruct (pending w); [done|]. unfold evaluate_settle.
    by destruct (awaited o).
Qed.

Lemma synced_update (i : string) (f : NodeData -> NodeData) (c c' : Config)
  (nds : list Node) :
  (forall n, n ∈ nds -> synced c n) ->
  (forall n, synced c n -> id n = i -> synced c' (with_data (f (data n)) n)) ->
  (forall n, synced c n -> id n <> i -> synced c' n) ->
  forall n', n' ∈ update_data_of i f nds -> synced c' n'.
Proof.
  intros Hall Hhit Hmiss n' Hn'. unfold update_data_of in Hn'.
  rewrite map_fmap in Hn'. apply list_elem_of_fmap in Hn' as (n & -> & Hn).
  destruct (String.eqb_spec (id n) i) as [E | E]; [apply Hhit|apply Hmiss]; auto.
Qed.

Lemma synced_new_node (c : Config) (i : string) (item : LibraryItem) (xy : XY) :
  populated c -> has_limits c ->
  List.find (fun it => String.eqb (item_id it) i) (library c) = Some item ->
  synced c (mkNode (item_id item) (item_type item) xy (item_data item)).
Proof.
  intros ([w Hw] & [r Hr] & _ & [u Hu] & _) ([x Hx] & [k Hk] & [t Ht]).
  unfold library. cbn [List.find item_id].
  repeat match goal with
         | |- context [String.eqb ?a i] =>
             destruct (String.eqb_spec a i) as [E | _];
             [intros F; injection F as <-; unfold synced; simpl;
              rewrite ?Hw, ?Hr, ?Hu, ?Hx, ?Hk, ?Ht;
              repeat split; intros; (done || congruence)|]
         end.
  discriminate.
Qed.

Lemma synced_preset (name : PresetName) (c : Config) (n : Node) :
  synced c n -> synced (merge_preset (PRESETS name) c) (preset_node (PRESETS name) n).
Proof.
  intros (Hg & Hl & Hu). unfold preset_node.
  destruct (String.eqb_spec (id n) "gate") as [Eg | Eg].
  { destruct (Hg Eg) as [Hw Hr]. unfold synced. simpl.
    repeat split; intros; try congruence;
      rewrite ?Hw, ?Hr; by destruct name. }
  destruct (String.eqb_spec (id n) "limits") as [El | El].
  { destruct (Hl El) as (Hx & Hk & Ht). unfold synced.
    rewrite !limit_of_merge_preset. simpl.
    repeat split; intros; try congruence; by rewrite ?Hx, ?Hk, ?Ht. }
  destruct (String.eqb_spec (id n) "unmatched") as [Eu | Eu].
  { unfold synced. simpl. repeat split; intros; try congruence.
    rewrite (Hu Eu). by destruct name. }
  unfold synced. repeat split; intros; congruence.
Qed.

Lemma synced_addFromLibrary (i : string) (pos : option XY) (s : State) :
  populated (config s) -> has_limits (config s) ->
  (forall n, n ∈ nodes s -> synced (config s) n) ->
  forall n, n ∈ nodes (addFromLibrary i pos s) ->
            synced (config (addFromLibrary i pos s)) n.
Proof.
  intros Hp Hl Hall n. rewrite config_addFromLibrary. unfold addFromLibrary.
  destruct (List.find _ _) as [item|] eqn:F; [|by apply Hall].
  destruct (unique item && used (item_id item) s); [by apply Hall|].
  simpl. intros Hn. apply elem_of_app in Hn as [Hn | Hn]; [by apply Hall|].
  apply list_elem_of_singleton in Hn. subst n.
  by apply (synced_new_node (config s) i).
Qed.

Lemma synced_dispatch (e : Event) (w : Session) :
  tame_event e ->
  populated (config (ui w)) -> has_limits (config (ui w)) ->
  (forall n, n ∈ nodes (ui w) -> synced (config (ui w)) n) ->
  forall n, n ∈ nodes (ui (dispatch e w)) ->
            synced (config (ui (dispatch e w))) n.
Proof.
  intros He Hp Hl Hall.
  destruct e as [i xy | i | addEdge params | apply | apply | v | v | k v | v
                | name | seen_nodes seen_edges | o]; simpl; try done.
  - unfold onDrop. destruct (String.eqb i ""); [done|].
    by apply synced_addFromLibrary.
  - unfold onClickCard. destruct (used i (ui w)); [done|].
    by apply synced_addFromLibrary.
  - intros n' Hn'. specialize (He (nodes (ui w))).
    apply sublist_subseteq in He.
    assert (Hk : node_key n' ∈ node_key <$> nodes (ui w)).
    { apply He. by apply list_elem_of_fmap_2. }
    apply list_elem_of_fmap in Hk as (n & Ek & Hn).
    unfold node_key in Ek. injection Ek as Ei _ Ed.
    specialize (Hall n Hn). unfold synced in *. rewrite Ei, Ed. exact Hall.
  - apply (synced_update _ _ (config (ui w))); [done| |].
    + intros n (Hg & _) E. unfold synced. simpl.
      repeat split; intros; try congruence. by apply Hg.
    + intros n (_ & Hx & Hu) E. unfold synced. simpl.
      repeat split; intros; try congruence; by (apply Hx || apply Hu).
  - apply (synced_update _ _ (config (ui w))); [done| |].
    + intros n (Hg & _) E. unfold synced. simpl.
      repeat split; intros; try congruence. by apply Hg.
    + intros n (_ & Hx & Hu) E. unfold synced. simpl.
      repeat split; intros; try congruence; by (apply Hx || apply Hu).
  - apply (synced_update _ _ (config (ui w))); [done| |].
    + intros n (_ & Hx & _) E. destruct (Hx E) as (Ex & Ek & Et).
      destruct Hl as ([x Hx'] & [c Hc'] & [t Ht']).
      unfold limit_of in *.
      destruct (hard_limits (config (ui w))) as [h|]; [|done].
      unfold synced, limit_of, data_with_key. simpl in *.
      destruct k; simpl;
        rewrite ?lookup_insert_eq, ?lookup_insert_ne by done;
        repeat split; intros; congruence.
    + intros n (Hg & _ & Hu) E. unfold synced. simpl.
      repeat split; intros; try congruence; by (apply Hg || apply Hu).
  - apply (synced_update _ _ (config (ui w))); [done| |].
    + intros n _ E. unfold synced. simpl.
      repeat split; intros; congruence.
    + intros n (Hg & Hx & _) E. unfold synced. simpl.
      repeat split; intros; try congruence; by (apply Hg || apply Hx).
  - intros n' Hn'. rewrite map_fmap in Hn'.
    apply list_elem_of_fmap in Hn' as (n & -> & Hn).
    by apply synced_preset, Hall.
  - unfold evaluate_call.
    by destruct (negb (isValidGraph seen_nodes seen_edges)).
  - destruct (pending w); [done|]. unfold evaluate_settle.
    by destruct (awaited o).
Qed.

Lemma has_limits_initial : has_limits initial_config.
Proof. repeat split; by eexists. Qed.

Lemma populated_initial : populated initial_config.
Proof. repeat split; by eexists. Qed.

(** X4.  As long as the node changes of the board library only move,
    select or delete nodes, the parameters in the data of the gate,
    limits and unmatched nodes on the board are those of the config:
    every slider handler, every preset and every placement keeps the
    two in step. *)
Theorem node_data_follows_config :
  (forall e w,
      tame_event e ->
      populated (config (ui w)) -> has_limits (config (ui w)) ->
      (forall n, n ∈ nodes (ui w) -> synced (config (ui w)) n) ->
      forall n, n ∈ nodes (ui (dispatch e w)) ->
                synced (config (ui (dispatch e w))) n)
  /\ (forall evs,
         Forall tame_event evs ->
         let s := ui (run_events evs initial_session) in
         forall n, n ∈ nodes s -> synced (config s) n).
Proof.
  split; [exact synced_dispatch|].
  intros evs Hevs s.
  apply (run_events_invariant
           (fun w => populated (config (ui w)) /\ has_limits (config (ui w))
                     /\ forall n, n ∈ nodes (ui w) -> synced (config (ui w)) n)
           tame_event); [|done|].
  - intros e w He (Hp & Hl & Hall). split; [by apply populated_dispatch|].
    split; [by apply has_limits_dispatch|]. by apply synced_dispatch.
  - split; [exact populated_initial|]. split; [exact has_limits_initial|].
    intros n Hn. by apply elem_of_nil in Hn.
Qed.

(** The gate and the limits are placed, the window is moved, Strict is
    selected and the cost limit is moved: the nodes show the config. *)
Lemma node_data_follows_config_witness :
  let evs := [ClickCard "gate"; ChangeWindow 7%Q; ClickCard "limits";
              SelectPreset Strict; ChangeLimit KeyCost 9%Q] in
  let s := ui (run_events evs initial_session) in
  window (config s) = Some 3.5%Q
  /\ limit_of (config s) "cost" = Some 9%Q
  /\ forall n, n ∈ nodes s -> synced (config s) n.
Proof.
  intros evs s.
  assert (Hevs : Forall tame_event evs) by (by repeat constructor).
  split; [reflexivity|]. split; [reflexivity|].
  exact (proj2 node_data_follows_config evs Hevs).
Defined.

Lemma spread_dict_cover (c a : dict) : dom c ⊆ dom a -> spread_dict c a = a.
Proof.
  intros Hd. apply map_eq. intros k. rewrite spread_dict_lookup.
  destruct (a !! k) eqn:Ea; [done|].
  apply not_elem_of_dom. intros Hk. apply Hd in Hk.
  apply elem_of_dom in Hk as [v Hv]. congruence.
Qed.

(** X5.  On the board the weights are never edited: in every session
    they are the weights of one of the three presets. *)
Theorem weights_are_a_preset (w : Session) :
  reachable w -> exists name, weights (config (ui w)) = weights (PRESETS name).
Proof.
  induction 1 as [|w e Hw [name IH]]; [by exists Balanced|].
  destruct e as [i xy | i | addEdge params | apply | apply | v | v | k v | v
                | name' | seen_nodes seen_edges | o]; simpl;
    try (by exists name).
  - exists name. unfold onDrop. destruct (String.eqb i ""); [done|].
    by rewrite config_addFromLibrary.
  - exists name. unfold onClickCard. destruct (used i (ui w)); [done|].
    by rewrite config_addFromLibrary.
  - exists name'.
    transitivity (Some (or_empty (weights (PRESETS name'))));
      [|by destruct name'].
    rewrite IH. f_equal. apply spread_dict_cover.
    destruct name, name'; simpl; rewrite !dom_insert_L; set_solver +.
  - exists name. unfold evaluate_call.
    by destruct (negb (isValidGraph seen_nodes seen_edges)).
  - exists name. destruct (pending w); [done|]. unfold evaluate_settle.
    by destruct (awaited o).
Qed.

(** After Lenient, the sliders and Strict the weights are Strict's. *)
Lemma weights_are_a_preset_witness :
  exists name,
    weights (config (ui (run_events
                           [SelectPreset Lenient; ChangeWindow 2%Q;
                            ChangeLimit KeyDx 1%Q; SelectPreset Strict]
                           initial_session)))
    = weights (PRESETS name).
Proof.
  apply weights_are_a_preset. apply reachable_run_events. constructor.
Defined.

End NodeData.

(** ** Slider ranges *)

Section Ranges.
Import Interactive.

Lemma preset_within (name : PresetName) :
  (forall v, window (PRESETS name) = Some v -> within window_range v)
  /\ (forall v, unmatched_penalty (PRESETS name) = Some v ->
                within penalty_range v)
  /\ (forall k v, or_empty (hard_limits (PRESETS name)) !! k = Some v ->
                  within (limit_range k) v).
Proof.
  split; [|split].
  - intros v E. destruct name; injection E as <-;
      split; unfold Qle; simpl; lia.
  - intros v E. destruct name; injection E as <-;
      split; unfold Qle; simpl; lia.
  - intros k v E.
    destruct name; simpl in E;
      repeat (apply lookup_insert_Some in E as [[<- <-] | [_ E]];
              [split; unfold Qle; simpl; lia|]);
      by rewrite lookup_empty in E.
Qed.

Lemma config_within_initial : config_within initial_config.
Proof.
  split; [|split].
  - intros v E. injection E as <-. split; unfold Qle; simpl; lia.
  - intros v E. injection E as <-. split; unfold Qle; simpl; lia.
  - intros k v E. simpl in E.
    repeat (apply lookup_insert_Some in E as [[<- <-] | [_ E]];
            [split; unfold Qle; simpl; lia|]).
    by rewrite lookup_empty in E.
Qed.

Lemma config_within_dispatch (e : Event) (w : Session) :
  slider_event e ->
  config_within (config (ui w)) -> config_within (config (ui (dispatch e w))).
Proof.
  intros He Hc. pose proof Hc as (Hw & Hu & Hl).
  destruct e as [i xy | i | addEdge params | apply | apply | v | v | k v | v
                | name | seen_nodes seen_edges | o]; simpl; try done.
  - unfold onDrop. destruct (String.eqb i ""); [done|].
    by rewrite config_addFromLibrary.
  - unfold onClickCard. destruct (used i (ui w)); [done|].
    by rewrite config_addFromLibrary.
  - split; [|done]. intros v' E. simpl in E. by injection E as <-.
  - split; [done|]. split; [done|]. intros k' v' E. simpl in E.
    apply lookup_insert_Some in E as [[<- <-] | [_ E]]; [done|by apply Hl].
  - split; [done|]. split; [|done]. intros v' E. simpl in E.
    by injection E as <-.
  - destruct (preset_within name) as (Pw & Pu & Pl). split; [|split].
    + intros v E. simpl in E.
      destruct (window (PRESETS name)) as [pv|] eqn:Ep; simpl in E;
        [injection E as <-; by apply Pw|by apply Hw].
    + intros v E. simpl in E.
      destruct (unmatched_penalty (PRESETS name)) as [pv|] eqn:Ep; simpl in E;
        [injection E as <-; by apply Pu|by apply Hu].
    + intros k v E. simpl in E. rewrite spread_dict_lookup in E.
      destruct (or_empty (hard_limits (PRESETS name)) !! k) as [pv|] eqn:Ep;
        [injection E as <-; by apply Pl|by apply Hl].
  - unfold evaluate_call.
    by destruct (negb (isValidGraph seen_nodes seen_edges)).
  - destruct (pending w); [done|]. unfold evaluate_settle.
    by destruct (awaited o).
Qed.

(** X6.  When every slider event carries a value of its slider's range
    (the window 1 to 15, the penalty 5 to 50, [dx] and [clock] 0.5 to 10,
    [cost] 5 to 25), the config stays within these ranges, presets
    included, and so does the config of every request the board sends. *)
Theorem config_stays_in_slider_ranges :
  (forall e w,
      slider_event e -> config_within (config (ui w)) ->
      config_within (config (ui (dispatch e w))))
  /\ (forall evs,
         Forall slider_event evs ->
         let w := run_events evs initial_session in
         config_within (config (ui w))
         /\ forall r, r ∈ sent w ->
                      exists c, config_within c /\ r = evaluate_request c).
Proof.
  split; [exact config_within_dispatch|].
  intros evs Hevs w.
  assert (Inv : config_within (config (ui w))
                /\ configRef (ui w) = config (ui w)
                /\ Forall (fun r => exists c, config_within c
                                              /\ r = evaluate_request c)
                          (sent w)).
  { apply (run_events_invariant
             (fun w => config_within (config (ui w))
                       /\ configRef (ui w) = config (ui w)
                       /\ Forall (fun r => exists c, config_within c
                                                     /\ r = evaluate_request c)
                                 (sent w))
             slider_event); [|done|].
    - intros e w0 He (Hc & Href & Hs).
      split; [by apply config_within_dispatch|].
      split; [by apply configRef_dispatch|].
      destruct (sent_dispatch e w0) as [-> | (ns & es & _ & _ & ->)]; [done|].
      apply Forall_app. split; [done|].
      constructor; [|by constructor].
      exists (configRef (ui w0)). by rewrite Href.
    - split; [exact config_within_initial|]. split; [done|by constructor]. }
  destruct Inv as (Hc & _ & Hs). split; [done|].
  intros r Hr. rewrite Forall_forall in Hs. by apply Hs.
Qed.

(** The window is moved to 1.5, Lenient is selected, the cost limit is
    moved to 25 and the graph is evaluated. *)
Lemma config_stays_in_slider_ranges_witness :
  let evs := [ChangeWindow 1.5%Q; SelectPreset Lenient;
              ChangeLimit KeyCost 25%Q;
              ClickRun scenario_nodes scenario_edges] in
  let w := run_events evs initial_session in
  length (sent w) = 1 /\ config_within (config (ui w)).
Proof.
  intros evs w.
  assert (Hevs : Forall slider_event evs).
  { repeat constructor; unfold Qle; simpl; lia. }
  split; [reflexivity|].
  exact (proj1 (proj2 config_stays_in_slider_ranges evs Hevs)).
Defined.

End Ranges.

(** ** What the validator looks at *)

Section ValidatorShape.
Import Interactive.

(** X1.  The validator only looks for the evaluate node and for the
    endpoints of the edges: a graph stays accepted when nodes and edges
    are added, its other nodes do not matter (the input and gate nodes
    need not be on the board), and an accepted graph has at least two
    edges. *)
Theorem validator_reads_ids_only :
  (forall ns ns' es es',
      (forall n, n ∈ ns -> exists n', n' ∈ ns' /\ id n' = id n) ->
      (forall e, e ∈ es ->
                 exists e', e' ∈ es' /\ source e' = source e
                            /\ target e' = target e) ->
      isValidGraph ns es = true -> isValidGraph ns' es' = true)
  /\ (forall ns es,
         isValidGraph ns es
         = isValidGraph
             (List.filter (fun n => String.eqb (id n) "evaluate") ns) es)
  /\ (forall ns es, isValidGraph ns es = true -> 2 <= length es).
Proof.
  split; [|split].
  - intros ns ns' es es' Hn He. rewrite !isValidGraph_iff.
    intros ((n & Hin & En) & (e1 & Hi1 & Es1 & Et1) & (e2 & Hi2 & Et2)).
    split; [|split].
    + destruct (Hn n Hin) as (n' & ? & ?). exists n'. split; congruence.
    + destruct (He e1 Hi1) as (e' & ? & ? & ?). exists e'.
      repeat split; congruence.
    + destruct (He e2 Hi2) as (e' & ? & ? & ?). exists e'. split; congruence.
  - intros ns es. unfold isValidGraph. f_equal. f_equal.
    induction ns as [|n ns IH]; [done|]. simpl.
    destruct (String.eqb (id n) "evaluate") eqn:E; simpl; rewrite ?E; simpl;
      [done|exact IH].
  - intros ns es. rewrite isValidGraph_iff.
    intros (_ & (e1 & Hi1 & Es1 & Et1) & (e2 & Hi2 & Et2)).
    change 2 with (length [e1; e2]). apply submseteq_length, NoDup_submseteq.
    + apply NoDup_cons. split; [|apply NoDup_singleton].
      intros H. apply list_elem_of_singleton in H. congruence.
    + intros e H. apply elem_of_cons in H as [-> | H]; [done|].
      by apply list_elem_of_singleton in H as ->.
Qed.

(** The scenario graph stays accepted without the input and gate
    nodes, with the evaluate node elsewhere and with an edge more. *)
Lemma validator_reads_ids_only_witness :
  isValidGraph
    [mkNode "evaluate" "evaluateNode" (default_position 0) no_data]
    (mkEdge "limits" "evaluate" None None :: scenario_edges) = true
  /\ 2 <= length scenario_edges.
Proof.
  destruct validator_reads_ids_only as (Hmono & _ & Hlen). split.
  - apply (Hmono (List.filter (fun n => String.eqb (id n) "evaluate")
                    scenario_nodes) _ scenario_edges).
    + intros n Hn.
      change (n ∈ [mkNode "evaluate" "evaluateNode" (default_position 2)
                     no_data]) in Hn.
      apply list_elem_of_singleton in Hn as ->.
      eexists. split; [apply list_elem_of_here|done].
    + intros e He. exists e. split; [by apply list_elem_of_further|done].
    + reflexivity.
  - apply (Hlen scenario_nodes). reflexivity.
Defined.

(** X2.  With a connection function that keeps the edges it is given
    and adds an edge for the connection, connecting [input] to [gate]
    and any node to [evaluate] makes the board valid once the evaluate
    node is on it, in either order of the two connections. *)
Theorem connecting_makes_the_board_valid
  (addEdge : Edge -> list Edge -> list Edge) (s : State) (x : string)
  (a b : Edge) :
  adds_connection addEdge ->
  (exists n, n ∈ nodes s /\ id n = "evaluate") ->
  (source a = "input" /\ target a = "gate" /\ target b = "evaluate")
  \/ (source b = "input" /\ target b = "gate" /\ target a = "evaluate") ->
  let s' := onConnect addEdge b (onConnect addEdge a s) in
  isValidGraph (nodes s') (edges s') = true.
Proof.
  intros Hadd Hn Hab s'. apply isValidGraph_iff.
  split; [exact Hn|].
  set (a' := mkEdge (source a) (target a) (Some "smoothstep") (Some true)).
  set (b' := mkEdge (source b) (target b) (Some "smoothstep") (Some true)).
  destruct (Hadd a' (edges s)) as (_ & ea & Hea & Esa & Eta).
  destruct (Hadd b' (addEdge a' (edges s))) as (Hkeep & eb & Heb & Esb & Etb).
  simpl in Esa, Eta, Esb, Etb.
  destruct Hab as [(Ea1 & Ea2 & Eb) | (Eb1 & Eb2 & Ea)].
  - split.
    + exists ea. split; [by apply Hkeep|]. split; congruence.
    + exists eb. split; [exact Heb|congruence].
  - split.
    + exists eb. split; [exact Heb|]. split; congruence.
    + exists ea. split; [by apply Hkeep|congruence].
Qed.

(** The evaluate node is placed on the empty board and the two
    connections are appended to the edge list. *)
Lemma connecting_makes_the_board_valid_witness :
  let addEdge := fun (e : Edge) (eds : list Edge) => (eds ++ [e])%list in
  let s := addFromLibrary "evaluate" None initial_state in
  let s' := onConnect addEdge (mkEdge "gate" "evaluate" None None)
              (onConnect addEdge (mkEdge "input" "gate" None None) s) in
  isValidGraph (nodes s) (edges s) = false
  /\ isValidGraph (nodes s') (edges s') = true.
Proof.
  intros addEdge s s'. split; [reflexivity|].
  apply (connecting_makes_the_board_valid addEdge s "gate").
  - intros e eds. split.
    + intros e' He'. apply elem_of_app. by left.
    + exists e. split; [|done]. apply elem_of_app. right.
      by apply list_elem_of_singleton.
  - eexists. split; [apply list_elem_of_here|reflexivity].
  - left. done.
Defined.

(** X17.  The Evaluate stage is only placed on a board without an
    evaluate node, and the validator rejects that board whatever its
    edges are.  An [evaluate] that validates the nodes and edges of the
    moment of placement, as the callback in the library item of that
    render does, stores the remediation message and sends nothing, in
    whatever state it is called. *)
Theorem evaluate_of_placement_rejects (s : State) (pos : option XY) :
  used "evaluate" s = false ->
  (exists n, n ∈ nodes (addFromLibrary "evaluate" pos s) /\ id n = "evaluate")
  /\ isValidGraph (nodes s) (edges s) = false
  /\ forall s',
       evaluate_call (nodes s) (edges s) s'
       = (setStatus None (setWarning (Some remediation) s'), None).
Proof.
  intros Hu.
  assert (Hi : ("evaluate", "Evaluate") ∈ stages).
  { unfold stages. simpl. set_solver +. }
  split; [|split].
  - destruct (addFromLibrary_fresh _ _ pos s Hi Hu) as (item & _ & _ & ->).
    simpl. eexists.
    split; [apply elem_of_app; right; apply list_elem_of_here|reflexivity].
  - by apply isValidGraph_before_placement.
  - intros s'. apply evaluate_call_rejected.
    by apply isValidGraph_before_placement.
Qed.

(** The input and the gate are placed and connected, then the Evaluate
    stage is placed: the [evaluate] of that moment rejects, also after
    the gate has been connected to the new node. *)
Lemma evaluate_of_placement_rejects_witness :
  let addEdge := fun (e : Edge) (eds : list Edge) => (eds ++ [e])%list in
  let s := ui (run_events [ClickCard "input"; ClickCard "gate";
                           Connect addEdge (mkEdge "input" "gate" None None)]
                          initial_session) in
  let s1 := onConnect addEdge (mkEdge "gate" "evaluate" None None)
              (addFromLibrary "evaluate" None s) in
  isValidGraph (nodes s1) (edges s1) = true
  /\ snd (evaluate_call (nodes s) (edges s) s1) = None.
Proof.
  intros addEdge s s1. split; [reflexivity|].
  destruct (evaluate_of_placement_rejects s None eq_refl) as (_ & _ & H).
  by rewrite (H s1).
Defined.

(** X16.  Dropping something that is not a stage of the library, the
    empty id included, changes nothing: no node, no notice. *)
Theorem drop_of_unknown_id_does_nothing (i : string) (xy : XY) (s : State) :
  (forall t, (i, t) ∉ stages) ->
  onDrop i xy s = s /\ forall pos, addFromLibrary i pos s = s.
Proof.
  intros Hi. split.
  - unfold onDrop. destruct (String.eqb i ""); [done|].
    by apply addFromLibrary_unknown.
  - intros pos. by apply addFromLibrary_unknown.
Qed.

Lemma drop_of_unknown_id_does_nothing_witness :
  onDrop "Gate" (mkXY 0%Q 0%Q) initial_state = initial_state
  /\ onDrop "" (mkXY 0%Q 0%Q) initial_state = initial_state.
Proof.
  assert (H : forall i, i = "Gate" \/ i = "" -> forall t, (i, t) ∉ stages).
  { intros i Hi t Hin. unfold stages in Hin. simpl in Hin. set_unfold.
    destruct Hi as [-> | ->]; naive_solver. }
  split.
  - exact (proj1 (drop_of_unknown_id_does_nothing "Gate" _ _
                    (H "Gate" (or_introl eq_refl)))).
  - exact (proj1 (drop_of_unknown_id_does_nothing "" _ _
                    (H "" (or_intror eq_refl)))).
Defined.

(** X9.  A stage placed by a click goes to the next cell of a grid of
    three rows, filled column by column: different counts of nodes give
    different cells, the rows are at 40, 160 and 280, and the columns
    are 220 apart from -200.  A dropped stage goes where it is dropped. *)
Theorem placement_grid :
  (forall m n, default_position m = default_position n -> m = n)
  /\ (forall n,
         pos_x (default_position n)
         = inject_Z (-200 + 220 * Z.of_nat (n / 3))
         /\ (pos_y (default_position n) = inject_Z 40
             \/ pos_y (default_position n) = inject_Z 160
             \/ pos_y (default_position n) = inject_Z 280))
  /\ (forall n xy, base_position (Some xy) n = xy)
  /\ (forall n, base_position None n = default_position n).
Proof.
  split; [|split; [|split]].
  - intros m n E. unfold default_position in E.
    rewrite (Nat.div_mod_eq m 3), (Nat.div_mod_eq n 3).
    remember (m / 3)%nat as qm. remember (n / 3)%nat as qn.
    remember (m mod 3)%nat as rm. remember (n mod 3)%nat as rn.
    injection E as Ex Ey.
    assert (qm = qn) by lia. assert (rm = rn) by lia. congruence.
  - intros n. split.
    + unfold default_position. cbn [pos_x]. f_equal.
      remember (n / 3)%nat as qn. lia.
    + unfold default_position. cbn [pos_y].
      pose proof (Nat.mod_upper_bound n 3) as Hb.
      remember (n mod 3)%nat as rn.
      destruct rn as [|[|[|k]]]; [by left|by right; left|by right; right|lia].
  - intros n [x y]. reflexivity.
  - reflexivity.
Qed.

(** The fifth stage placed by click goes to the second row of the
    second column, and no other count of nodes leads there. *)
Lemma placement_grid_witness :
  default_position 4 = mkXY (inject_Z 20) (inject_Z 160)
  /\ forall n, default_position n = default_position 4 -> n = 4.
Proof.
  split; [reflexivity|].
  intros n E. exact (proj1 placement_grid n 4 E).
Defined.

End ValidatorShape.

(** ** The request body *)

Section Serialization.
Import Interactive.

(** X8.  A slider changes one field of the next request body and
    nothing else: the window, the same-side flag or the penalty under
    its key, and for a limit the one key of [hard_limits]. *)
Theorem slider_changes_one_field (s : State) :
  let fields := fun s' => json_fields (body (evaluate_request (config s'))) in
  (forall v, fields (onChangeWindow v s)
             = <["window" := JNum v]> (fields s))
  /\ (forall v, fields (onChangeSame v s)
                = <["require_same_side" := JBool v]> (fields s))
  /\ (forall v, fields (onChangePenalty v s)
                = <["unmatched_penalty" := JNum v]> (fields s))
  /\ (forall k v,
         fields (onChangeLimit k v s)
         = <["hard_limits" :=
               JObj (<[k := JNum v]>
                       (JNum <$> or_empty (hard_limits (config s))))]>
             (fields s)).
Proof.
  intros fields. subst fields. cbn beta.
  split; [|split; [|split]].
  - intros v. change (config (onChangeWindow v s)) with (with_window v (config s)).
    by destruct (config s) as [[w|] [r|] [ws|] [u|] [h|]].
  - intros v. change (config (onChangeSame v s))
      with (with_require_same_side v (config s)).
    by destruct (config s) as [[w|] [r|] [ws|] [u|] [h|]].
  - intros v. change (config (onChangePenalty v s))
      with (with_unmatched_penalty v (config s)).
    by destruct (config s) as [[w|] [r|] [ws|] [u|] [h|]].
  - intros k v. change (config (onChangeLimit k v s))
      with (with_hard_limits (<[k := v]> (or_empty (hard_limits (config s))))
              (config s)).
    rewrite <- (fmap_insert JNum).
    by destruct (config s) as [[w|] [r|] [ws|] [u|] [h|]].
Qed.

End Serialization.

(** ** The form *)

Section Form.

Lemma form_in_flight_dispatch (e : Workbench.Event) (w : Workbench.Session) :
  (Workbench.pending w = 0 /\ Workbench.loading (Workbench.ui w) = false)
  \/ (Workbench.pending w = 1 /\ Workbench.loading (Workbench.ui w) = true) ->
  let w' := Workbench.dispatch e w in
  (Workbench.pending w' = 0 /\ Workbench.loading (Workbench.ui w') = false)
  \/ (Workbench.pending w' = 1 /\ Workbench.loading (Workbench.ui w') = true).
Proof.
  intros H w'. subst w'. destruct e as [p | key p | | o]; simpl; try done.
  - unfold Workbench.onClickEvaluate.
    destruct H as [[Hp Hl] | [Hp Hl]]; rewrite Hl; simpl.
    + right. by rewrite Hp.
    + by right.
  - destruct H as [[Hp Hl] | [Hp Hl]]; rewrite Hp; [by left|].
    left. unfold Workbench.run_settle. by destruct (awaited o).
Qed.

(** X10.  On the form at most one request is pending at any time, and
    [loading] is true exactly while it is: the button shows
    [Evaluating...], and a click on it sends nothing and changes
    nothing. *)
Theorem form_has_one_request_in_flight (w : Workbench.Session) :
  Workbench.reachable w ->
  Workbench.pending w <= 1
  /\ (Workbench.loading (Workbench.ui w) = true <-> Workbench.pending w = 1)
  /\ (Workbench.pending w = 1 ->
      button_label (Workbench.ui w) = "Evaluating..."
      /\ Workbench.dispatch Workbench.ClickEvaluate w = w).
Proof.
  intros Hw.
  assert (H : (Workbench.pending w = 0
               /\ Workbench.loading (Workbench.ui w) = false)
              \/ (Workbench.pending w = 1
                  /\ Workbench.loading (Workbench.ui w) = true)).
  { induction Hw as [|w e Hw IH]; [by left|].
    by apply form_in_flight_dispatch. }
  destruct H as [[Hp Hl] | [Hp Hl]]; rewrite Hp, Hl.
  - split; [lia|]. split; [split; discriminate|discriminate].
  - split; [lia|]. split; [done|]. intros _. unfold button_label.
    rewrite Hl. split; [done|].
    destruct w as [u snt pnd]. simpl in *.
    unfold Workbench.onClickEvaluate. by rewrite Hl.
Qed.

(** Three clicks in a row send one request, and after the response a
    click sends the second. *)
Lemma form_has_one_request_in_flight_witness :
  let w := Workbench.run_events
             [Workbench.ClickEvaluate; Workbench.ClickEvaluate;
              Workbench.ClickEvaluate] Workbench.initial_session in
  length (Workbench.sent w) = 1 /\ Workbench.pending w <= 1
  /\ length (Workbench.sent
               (Workbench.run_events
                  [Workbench.Settle (Rejected "down"); Workbench.ClickEvaluate]
                  w)) = 2.
Proof.
  intros w.
  assert (Hw : Workbench.reachable w) by (by repeat constructor).
  destruct (form_has_one_request_in_flight w Hw) as (Hp & _).
  split; [reflexivity|]. split; [exact Hp|reflexivity].
Defined.

(** X11.  An attempt on the form ends with [loading] false and the
    config as it was.  A response that is a success stores whatever
    the payload holds, also a payload without KPIs or paths, and leaves
    no error; a failure stores the message and keeps the KPIs and
    artifacts of the attempt before on the page. *)
Theorem form_attempt_outcome (s : Workbench.State) (o : Outcome Workbench.Payload) :
  let s' := Workbench.run_settle o (fst (Workbench.run_call s)) in
  Workbench.config s' = Workbench.config s
  /\ Workbench.loading s' = false
  /\ match awaited o with
     | Resolved data =>
         form_phase s' = Succeeded
         /\ Workbench.error s' = None
         /\ Workbench.kpis s' = Workbench.data_kpis data
         /\ Workbench.artifacts s'
            = Some (Workbench.mkArtifacts
                      (Workbench.data_matches_path data)
                      (Workbench.data_families_path data)
                      (Workbench.data_segment_risk_path data))
     | Rejected m =>
         form_phase s' = Failed
         /\ Workbench.error s' = Some (message_or m "Evaluation failed")
         /\ Workbench.kpis s' = Workbench.kpis s
         /\ Workbench.artifacts s' = Workbench.artifacts s
     end.
Proof.
  intros s'. subst s'. unfold Workbench.run_settle, Workbench.run_call.
  by destruct (awaited o).
Qed.

Lemma update_nested_lookup (key : Workbench.NestedKey) (p : dict)
  (c : Workbench.Config) :
  let nested := fun c' =>
    match key with
    | Workbench.KWeights => Workbench.weights c'
    | Workbench.KPenalties => Workbench.penalties c'
    | Workbench.KHardLimits => Workbench.hard_limits c'
    end in
  exists d, nested (Workbench.update_nested key p c) = Some d
            /\ forall k, d !! k = match p !! k with
                                  | Some v => Some v
                                  | None => or_empty (nested c) !! k
                                  end.
Proof.
  destruct key; simpl; eexists; (split; [reflexivity|]);
    intros k; apply spread_dict_lookup.
Qed.

(** X14.  Patches of the form compose.  Two patches of the same nested
    object are one patch, the later keys winning; a patch applied twice
    is the patch applied once; patches of different nested objects can
    be applied in either order; and after a patch the object has the
    patch's keys with the patch's values and its other keys as before.
    Two patches of [updateConfig] are the patch merged from both. *)
Theorem form_patches_compose :
  (forall key p1 p2 c,
      Workbench.update_nested key p2 (Workbench.update_nested key p1 c)
      = Workbench.update_nested key (spread_dict p1 p2) c)
  /\ (forall key p c,
         Workbench.update_nested key p (Workbench.update_nested key p c)
         = Workbench.update_nested key p c)
  /\ (forall k1 k2 p1 p2 c,
         k1 <> k2 ->
         Workbench.update_nested k1 p1 (Workbench.update_nested k2 p2 c)
         = Workbench.update_nested k2 p2 (Workbench.update_nested k1 p1 c))
  /\ (forall p1 p2 c,
         Workbench.spread_config (Workbench.spread_config c p1) p2
         = Workbench.spread_config c (Workbench.spread_config p1 p2))
  /\ (forall key p c,
         let nested := fun c' =>
           match key with
           | Workbench.KWeights => Workbench.weights c'
           | Workbench.KPenalties => Workbench.penalties c'
           | Workbench.KHardLimits => Workbench.hard_limits c'
           end in
         exists d, nested (Workbench.update_nested key p c) = Some d
                   /\ forall k, d !! k = match p !! k with
                                         | Some v => Some v
                                         | None => or_empty (nested c) !! k
                                         end).
Proof.
  split; [|split; [|split; [|split]]].
  - intros key p1 p2 c. destruct key; simpl; f_equal; f_equal;
      apply spread_dict_assoc.
  - intros key p c. destruct key; simpl; f_equal; f_equal;
      rewrite spread_dict_assoc; f_equal; unfold spread_dict;
      apply (idemp_L (∪)).
  - intros k1 k2 p1 p2 c Hne. by destruct k1, k2.
  - intros p1 p2 c. unfold Workbench.spread_config; simpl.
    f_equal; apply or_else_assoc.
  - exact update_nested_lookup.
Qed.

(** A patch of the weights and a patch of the limits, in both orders. *)
Lemma form_patches_compose_witness :
  let p1 : dict := {["dist" := 2%Q]} in
  let p2 : dict := {["cost" := 9%Q]} in
  Workbench.update_nested Workbench.KWeights p1
    (Workbench.update_nested Workbench.KHardLimits p2 Workbench.initial_config)
  = Workbench.update_nested Workbench.KHardLimits p2
      (Workbench.update_nested Workbench.KWeights p1 Workbench.initial_config).
Proof.
  intros p1 p2.
  destruct form_patches_compose as (_ & _ & Hcomm & _).
  by apply Hcomm.
Defined.

End Form.

(** ** What the pages show *)

Section Shown.
Import Interactive.








End Shown.

(** ** An attempt on the board and the header *)

Section BoardAttempt.
Import Interactive.

Lemma message_or_nonempty (m : string) : message_or m "Evaluation failed" <> "".
Proof.
  unfold message_or. destruct (String.eqb_spec m ""); [discriminate|done].
Qed.

Lemma truthy_message (m : string) :
  truthy (Some (message_or m "Evaluation failed")) = true.
Proof.
  unfold truthy. apply negb_true_iff, String.eqb_neq, message_or_nonempty.
Qed.

(** X12.  An accepted attempt on the board ends with [loading] false
    and with config, nodes, edges and [usedIds] as they were.  After a
    success no warning is left; after a failure the warning is the
    message.  The payload of a successful response is not kept: two
    successes leave the same state whatever the engine returned. *)
Theorem board_attempt_outcome :
  (forall (P : Type) (o : Outcome P) ns es s,
      isValidGraph ns es = true ->
      let s' := evaluate_settle o (fst (evaluate_call ns es s)) in
      config s' = config s /\ nodes s' = nodes s /\ edges s' = edges s
      /\ usedIds s' = usedIds s /\ loading s' = false
      /\ match awaited o with
         | Resolved _ => phase s' = Succeeded /\ warning s' = None
         | Rejected m =>
             phase s' = Failed
             /\ warning s' = Some (message_or m "Evaluation failed")
         end)
  /\ (forall (P Q : Type) (o : Outcome P) (o' : Outcome Q) v v' s,
         awaited o = Resolved v -> awaited o' = Resolved v' ->
         evaluate_settle o s = evaluate_settle o' s).
Proof.
  split.
  - intros P o ns es s V s'. subst s'.
    rewrite (evaluate_call_accepted ns es s V). unfold evaluate_settle.
    by destruct (awaited o).
  - intros P Q o o' v v' s E E'. unfold evaluate_settle. by rewrite E, E'.
Qed.

(** Two different payloads, one of them an empty object. *)
Lemma board_attempt_outcome_witness :
  let o1 : Outcome json :=
    Resolved (mkResponse true (Resolved "{}") (Resolved (JObj ∅))) in
  let o2 : Outcome json :=
    Resolved (mkResponse true (Resolved "7") (Resolved (JNum 7%Q))) in
  let s := fst (evaluate_call scenario_nodes scenario_edges initial_state) in
  evaluate_settle o1 s = evaluate_settle o2 s
  /\ phase (evaluate_settle o1 s) = Succeeded.
Proof.
  intros o1 o2 s.
  destruct board_attempt_outcome as (Hout & Hsame). split.
  - by apply (Hsame json json o1 o2 (JObj ∅) (JNum 7%Q)).
  - destruct (Hout json o1 scenario_nodes scenario_edges initial_state eq_refl)
      as (_ & _ & _ & _ & _ & Hp & _).
    exact Hp.
Defined.

(** X13.  The header shows the running chip or the status chip, never
    both, and for a warning the chip [Check connections]: the text of
    the warning is not shown.  After a failed attempt the chips are the
    same whatever the message was, and a refused placement and a
    rejected graph show the same chip. *)
Theorem header_hides_the_warning_text :
  (forall s,
      header_chips s
      = ((if loading s then [("chipRunning", "Evaluating…")]
          else if truthy (status s)
               then [(status_class (default "" (status s)),
                      default "" (status s))]
               else [])
         ++ (if truthy (warning s) then [("chipWarn", "Check connections")]
             else []))%list)
  /\ (forall s m1 m2,
         m1 <> "" -> m2 <> "" ->
         header_chips (setWarning (Some m1) s)
         = header_chips (setWarning (Some m2) s))
  /\ (forall (P : Type) (o : Outcome P) m s,
         awaited o = Rejected m ->
         header_chips (evaluate_settle o s)
         = [("chipWarn", "Evaluation failed");
            ("chipWarn", "Check connections")])
  /\ (forall ns es s,
         isValidGraph ns es = false -> loading s = false ->
         header_chips (fst (evaluate_call ns es s))
         = [("chipWarn", "Check connections")]).
Proof.
  split; [|split; [|split]].
  - intros s. unfold header_chips.
    by destruct (loading s), (truthy (status s)).
  - intros s m1 m2 H1 H2. unfold header_chips. simpl.
    apply String.eqb_neq in H1, H2. by rewrite H1, H2.
  - intros P o m s E. unfold evaluate_settle. rewrite E.
    unfold header_chips.
    cbn [loading status warning setLoading setStatus setWarning].
    by rewrite truthy_message.
  - intros ns es s V L. rewrite (evaluate_call_rejected ns es s V).
    unfold header_chips. simpl. by rewrite L.
Qed.

(** The engine answers [bad weights]: the header shows the failure and
    [Check connections], as it does for any other message. *)
Lemma header_hides_the_warning_text_witness :
  let o : Outcome json := engine_failure "bad weights" (Rejected "") in
  header_chips (evaluate_settle o (setLoading true initial_state))
  = [("chipWarn", "Evaluation failed"); ("chipWarn", "Check connections")]
  /\ header_chips (setWarning (Some "bad weights") initial_state)
     = header_chips (setWarning (Some remediation) initial_state).
Proof.
  intros o.
  destruct header_hides_the_warning_text as (_ & Hsame & Hfail & _). split.
  - by apply (Hfail json o "bad weights").
  - by apply Hsame.
Defined.

End BoardAttempt.

(** ** Presets and the graph *)

Section PresetsAndGraph.
Import Interactive.

Lemma or_else_hides {A : Type} (b a x : option A) :
  is_Some b -> or_else b (or_else a x) = or_else b x.
Proof. by intros [v ->]. Qed.

Lemma preset_has_values (name : PresetName) :
  is_Some (window (PRESETS name))
  /\ is_Some (unmatched_penalty (PRESETS name))
  /\ is_Some (limit_of (PRESETS name) "dx")
  /\ is_Some (limit_of (PRESETS name) "clock")
  /\ is_Some (limit_of (PRESETS name) "cost").
Proof. destruct name; repeat split; by eexists. Qed.

Lemma preset_node_catalog (n1 n2 : PresetName) (n : Node) :
  preset_node (PRESETS n2) (preset_node (PRESETS n1) n)
  = preset_node (PRESETS n2) n.
Proof.
  destruct (preset_has_values n2) as (Hw & Hu & Hx & Hc & Ht).
  unfold preset_node at 2 3.
  destruct (String.eqb (id n) "gate") eqn:Eg.
  { unfold preset_node. simpl. rewrite Eg. unfold with_data. simpl.
    f_equal. unfold data_with_requireSame, data_with_window. simpl.
    f_equal. by apply or_else_hides. }
  destruct (String.eqb (id n) "limits") eqn:El.
  { unfold preset_node. simpl. rewrite Eg, El. unfold with_data. simpl.
    f_equal. unfold data_with_limits. simpl.
    f_equal; by apply or_else_hides. }
  destruct (String.eqb (id n) "unmatched") eqn:Eu.
  { unfold preset_node. simpl. rewrite Eg, El, Eu. unfold with_data. simpl.
    f_equal. unfold data_with_penalty. simpl.
    f_equal. by apply or_else_hides. }
  unfold preset_node. by rewrite Eg, El, Eu.
Qed.

(** X18.  On the whole state, config and nodes alike, selecting a
    preset after another leaves what selecting it alone leaves, and
    selecting a preset twice changes nothing more. *)
Theorem later_preset_hides_earlier :
  (forall n1 n2 s, applyPreset n2 (applyPreset n1 s) = applyPreset n2 s)
  /\ (forall name s, applyPreset name (applyPreset name s) = applyPreset name s).
Proof.
  assert (H : forall n1 n2 s,
             applyPreset n2 (applyPreset n1 s) = applyPreset n2 s).
  { intros n1 n2 s. destruct s as [c wn st ld pr cr nds eds us].
    unfold applyPreset, setNodes, setConfig, setPreset. simpl.
    f_equal; [apply merge_preset_catalog|].
    rewrite map_map. apply map_ext. intros n. apply preset_node_catalog. }
  split; [exact H|]. intros name s. apply H.
Qed.

(** X19.  Placing, connecting, moving and deleting never change the
    config, and the request of an accepted evaluation is the serialized
    config whatever graph was validated: what is sent does not depend
    on which nodes are on the board or how they are wired. *)
Theorem graph_edits_keep_the_config :
  (forall w i xy, config (ui (dispatch (Drop i xy) w)) = config (ui w))
  /\ (forall w i, config (ui (dispatch (ClickCard i) w)) = config (ui w))
  /\ (forall w addEdge e,
         config (ui (dispatch (Connect addEdge e) w)) = config (ui w))
  /\ (forall w apply,
         config (ui (dispatch (NodesChange apply) w)) = config (ui w))
  /\ (forall w apply,
         config (ui (dispatch (EdgesChange apply) w)) = config (ui w))
  /\ (forall ns es ns' es' s,
         isValidGraph ns es = true -> isValidGraph ns' es' = true ->
         evaluate_call ns es s = evaluate_call ns' es' s
         /\ snd (evaluate_call ns es s) = Some (evaluate_request (configRef s))).
Proof.
  repeat split; try done.
  - intros w i xy. simpl. unfold onDrop. destruct (String.eqb i ""); [done|].
    by rewrite config_addFromLibrary.
  - intros w i. simpl. unfold onClickCard. destruct (used i (ui w)); [done|].
    by rewrite config_addFromLibrary.
  - by rewrite (evaluate_call_accepted _ _ _ H), (evaluate_call_accepted _ _ _ H0).
  - by rewrite (evaluate_call_accepted _ _ _ H).
Qed.

(** The scenario graph and the same graph with the limits wired in are
    evaluated with the same request. *)
Lemma graph_edits_keep_the_config_witness :
  evaluate_call scenario_nodes scenario_edges initial_state
  = evaluate_call scenario_nodes
      (mkEdge "limits" "evaluate" None None :: scenario_edges) initial_state.
Proof.
  destruct graph_edits_keep_the_config as (_ & _ & _ & _ & _ & H).
  exact (proj1 (H scenario_nodes scenario_edges scenario_nodes
                  (mkEdge "limits" "evaluate" None None :: scenario_edges)
                  initial_state eq_refl eq_refl)).
Defined.

End PresetsAndGraph.

(** ** The busy flag of the board *)

Section BoardBusy.
Import Interactive.

(** X20.  On the board [loading] is never true without a request
    pending: once every request has settled the running chip is gone,
    however the attempts ended.  No more requests are pending than were
    sent. *)
Theorem board_busy_only_while_pending (w : Session) :
  reachable w ->
  (loading (ui w) = true -> 0 < pending w)
  /\ (pending w = 0 ->
      loading (ui w) = false
      /\ ("chipRunning", "Evaluating…") ∉ header_chips (ui w))
  /\ pending w <= length (sent w).
Proof.
  intros Hw.
  assert (H : (loading (ui w) = true -> 0 < pending w)
              /\ pending w <= length (sent w)).
  { induction Hw as [|w e Hw [IH1 IH2]]; [by split; [discriminate|]|].
    destruct e as [i xy | i | addEdge params | apply | apply | v | v | k v | v
                  | name | seen_nodes seen_edges | o]; simpl; try done.
    - split; [|done]. unfold onDrop. destruct (String.eqb i ""); [done|].
      unfold addFromLibrary. destruct (List.find _ _) as [item|]; [|done].
      by destruct (unique item && used (item_id item) (ui w)).
    - split; [|done]. unfold onClickCard. destruct (used i (ui w)); [done|].
      unfold addFromLibrary. destruct (List.find _ _) as [item|]; [|done].
      by destruct (unique item && used (item_id item) (ui w)).
    - unfold evaluate_call.
      destruct (negb (isValidGraph seen_nodes seen_edges)); simpl; [done|].
      rewrite length_app. simpl. split; lia.
    - destruct (pending w) as [|n] eqn:Hp; [by rewrite Hp|]. simpl.
      unfold evaluate_settle. split; [|lia].
      by destruct (awaited o). }
  destruct H as [H1 H2]. split; [done|]. split; [|done].
  intros Hp.
  assert (Hl : loading (ui w) = false).
  { destruct (loading (ui w)); [|done]. specialize (H1 eq_refl). lia. }
  split; [done|]. unfold header_chips. rewrite Hl. simpl.
  intros Hin. apply elem_of_app in Hin as [Hin | Hin].
  - destruct (truthy (status (ui w))); simpl in Hin.
    + apply list_elem_of_singleton in Hin. injection Hin as Hc _.
      unfold status_class in Hc.
      destruct (String.eqb _ "Evaluation succeeded"); [discriminate|].
      by destruct (String.eqb _ "Evaluation failed").
    + by apply elem_of_nil in Hin.
  - destruct (truthy (warning (ui w))).
    + apply list_elem_of_singleton in Hin. discriminate.
    + by apply elem_of_nil in Hin.
Qed.

(** Two requests are sent and both fail: nothing is pending and the
    page is not busy. *)
Lemma board_busy_only_while_pending_witness :
  let w := run_events [ClickRun scenario_nodes scenario_edges;
                       ClickRun scenario_nodes scenario_edges;
                       Settle (transport_failure "down");
                       Settle (transport_failure "down")] initial_session in
  length (sent w) = 2 /\ pending w = 0 /\ loading (ui w) = false.
Proof.
  intros w.
  assert (Hw : reachable w) by (apply reachable_run_events; constructor).
  destruct (board_busy_only_while_pending w Hw) as (_ & H & _).
  split; [reflexivity|]. split; [reflexivity|]. exact (proj1 (H eq_refl)).
Defined.

End BoardBusy.
